(** * mqtt_gnss: the GNSS sender and receiver, embedded and verified

    The development follows the two programs of the repository.

    - [gnss_sender.cpp]: [getFormattedTime], [getFormattedDate],
      [calculateChecksum] and [generateGNSSData].  Strings are
      [string], [int] values are [Z], results of [rand()] are [N],
      [unsigned char] is [N] with its wrap-around written out, and
      [double] is a rational rounded to binary64 after every operation.
    - [gnss_receiver.cpp]: [on_message], [validateNMEAFormat],
      [storeValidData], [handle_signal] and the loop of [main], as a
      transition system over the globals [receivedMessage] and
      [running]. *)

From Stdlib Require Import ZArith NArith QArith Qround Qabs Lia Lqa.
From Stdlib Require Import List Bool Ascii String.
From Stdlib Require Import Decimal Hexadecimal DecimalString.
From Stdlib Require Uint63 Floats.
From Stdlib Require DecimalFacts DecimalPos DecimalZ Permutation.
Import ListNotations.

#[local] Open Scope string_scope.
#[local] Open Scope Z_scope.

(* ================================================================== *)
(** ** Strings *)

Module Str.

(** Every character of [s] satisfies [p]. *)
Fixpoint all (p : ascii -> bool) (s : string) : bool :=
  match s with
  | EmptyString => true
  | String c r => p c && all p r
  end.

Fixpoint replicate (n : nat) (c : ascii) : string :=
  match n with
  | O => EmptyString
  | S k => String c (replicate k c)
  end.

(** Right adjustment in a field of width [w], as an output stream does
    with [setw] and [setfill]: nothing is cut when [s] is wider. *)
Definition pad_left (w : nat) (fill : ascii) (s : string) : string :=
  replicate (w - String.length s) fill ++ s.

(** The text before and after the first occurrence of [c]. *)
Fixpoint split_first (c : ascii) (s : string) : option (string * string) :=
  match s with
  | EmptyString => None
  | String a r =>
      if Ascii.eqb a c then Some (EmptyString, r)
      else match split_first c r with
           | Some (pre, post) => Some (String a pre, post)
           | None => None
           end
  end.

(** The pieces of [s] between the occurrences of [c]. *)
Fixpoint split_on (c : ascii) (s : string) : list string :=
  match s with
  | EmptyString => [EmptyString]
  | String a r =>
      if Ascii.eqb a c then EmptyString :: split_on c r
      else match split_on c r with
           | f :: fs => String a f :: fs
           | [] => [String a EmptyString]
           end
  end.

Definition drop_prefix (p s : string) : option string :=
  if String.prefix p s
  then Some (String.substring (String.length p)
               (String.length s - String.length p) s)
  else None.

Definition neqb (c : ascii) : ascii -> bool := fun a => negb (Ascii.eqb a c).

Fixpoint map (f : ascii -> ascii) (s : string) : string :=
  match s with
  | EmptyString => EmptyString
  | String c r => String (f c) (map f r)
  end.

End Str.

(* ================================================================== *)
(** ** Formatting of integers *)

(** [std::to_string(int)] and [operator<<(int)] in decimal. *)
Definition to_string_int (z : Z) : string :=
  NilZero.string_of_int (Z.to_int z).

(** [ss << std::setw(2) << std::setfill('0') << x]. *)
Definition put_int_w2 (x : Z) : string :=
  Str.pad_left 2 "0"%char (to_string_int x).

(** Digits of [std::hex << std::uppercase]. *)
Fixpoint string_of_hex_uint_upper (d : Hexadecimal.uint) : string :=
  match d with
  | Hexadecimal.Nil => EmptyString
  | Hexadecimal.D0 r => String "0" (string_of_hex_uint_upper r)
  | Hexadecimal.D1 r => String "1" (string_of_hex_uint_upper r)
  | Hexadecimal.D2 r => String "2" (string_of_hex_uint_upper r)
  | Hexadecimal.D3 r => String "3" (string_of_hex_uint_upper r)
  | Hexadecimal.D4 r => String "4" (string_of_hex_uint_upper r)
  | Hexadecimal.D5 r => String "5" (string_of_hex_uint_upper r)
  | Hexadecimal.D6 r => String "6" (string_of_hex_uint_upper r)
  | Hexadecimal.D7 r => String "7" (string_of_hex_uint_upper r)
  | Hexadecimal.D8 r => String "8" (string_of_hex_uint_upper r)
  | Hexadecimal.D9 r => String "9" (string_of_hex_uint_upper r)
  | Hexadecimal.Da r => String "A" (string_of_hex_uint_upper r)
  | Hexadecimal.Db r => String "B" (string_of_hex_uint_upper r)
  | Hexadecimal.Dc r => String "C" (string_of_hex_uint_upper r)
  | Hexadecimal.Dd r => String "D" (string_of_hex_uint_upper r)
  | Hexadecimal.De r => String "E" (string_of_hex_uint_upper r)
  | Hexadecimal.Df r => String "F" (string_of_hex_uint_upper r)
  end.

(** [ss << std::hex << std::uppercase << std::setw(2)
       << std::setfill('0') << (int)checksum] for a value that
    comes from an [unsigned char]. *)
Definition put_hex_w2 (n : N) : string :=
  Str.pad_left 2 "0"%char (string_of_hex_uint_upper (N.to_hex_uint n)).

(* ================================================================== *)
(** ** [calculateChecksum] *)

(** [checksum ^= sentence[i]] on an [unsigned char]: both operands are
    promoted to [int], and the assignment keeps the low eight bits. *)
Definition xor_step (checksum : N) (c : ascii) : N :=
  (N.lxor checksum (N_of_ascii c) mod 256)%N.

Fixpoint xor_loop (checksum : N) (s : string) : N :=
  match s with
  | EmptyString => checksum
  | String c r => xor_loop (xor_step checksum c) r
  end.

(** The loop starts at index 1: the first character never enters the
    checksum, whatever it is. *)
Definition calculateChecksum (sentence : string) : string :=
  let checksum :=
    match sentence with
    | EmptyString => 0%N
    | String _ rest => xor_loop 0%N rest
    end in
  put_hex_w2 checksum.

(* ================================================================== *)
(** ** [double]: IEEE 754 binary64, round to nearest, ties to even *)

(** A finite [double] is the rational it denotes.  Every operation is
    the exact rational operation followed by one rounding to a
    multiple of [2^e], where [e] is the exponent of the last place
    for 53 significant bits and is never below that of the subnormal
    numbers, [-1074].  Overflow to infinity is left out: no value of
    the sender reaches [2^8]. *)
Module Binary64.

Definition pow2 (e : Z) : Q :=
  if 0 <=? e then inject_Z (2 ^ e) else 1 # Z.to_pos (2 ^ (- e)).

(** For [0 < x], the largest [l] with [2^l <= x]. *)
Definition floor_log2 (x : Q) : Z :=
  let l := Z.log2 (Qnum x) - Z.log2 (Zpos (Qden x)) in
  if Qle_bool (pow2 l) x then l else l - 1.

(** The integer nearest to [y], the even one when two are. *)
Definition rne (y : Q) : Z :=
  let f := Qfloor y in
  match (y - inject_Z f ?= 1 # 2)%Q with
  | Lt => f
  | Gt => f + 1
  | Eq => if Z.even f then f else f + 1
  end.

Definition ulp_exp (x : Q) : Z :=
  Z.max (floor_log2 (Qabs x) - 52) (-1074).

Definition round (x : Q) : Q :=
  if Qeq_bool x 0 then 0%Q
  else let e := ulp_exp x in
       Qred (inject_Z (rne (x / pow2 e)) * pow2 e).

Definition add (x y : Q) : Q := round (x + y).
Definition sub (x y : Q) : Q := round (x - y).
Definition mul (x y : Q) : Q := round (x * y).
Definition div (x y : Q) : Q := round (x / y).

(** Half a unit in the last place of the [double]s between [2^7] and
    [2^8], [2^-46]: no rounding of a smaller value moves it further. *)
Definition half_ulp_8 : Q := 1 # 70368744177664.

(** [(int)x]: the fraction is discarded, towards zero. *)
Definition to_int (x : Q) : Z := Z.quot (Qnum x) (Zpos (Qden x)).

(** [std::to_string(double)], that is [printf("%f")]: the exact value
    rounded to six decimals, ties to even, at least one digit before
    the point. *)
Definition to_string (x : Q) : string :=
  let n := rne (Qabs x * inject_Z 1000000) in
  let sign := if Qlt_le_dec x 0 then "-" else "" in
  sign ++ to_string_int (n / 1000000) ++ "."
       ++ Str.pad_left 6 "0"%char (to_string_int (n mod 1000000)).

(** The rational that a hardware [double] of Rocq denotes, to compare
    this module with the processor on samples. *)
Definition of_prim (f : PrimFloat.float) : option Q :=
  match FloatOps.Prim2SF f with
  | SpecFloat.S754_zero _ => Some 0%Q
  | SpecFloat.S754_finite sign m e =>
      Some (Qred ((if sign then -1 else 1) * inject_Z (Zpos m) * pow2 e))
  | _ => None
  end.

Definition prim_of_Z (z : Z) : PrimFloat.float :=
  PrimFloat.of_uint63 (Uint63.of_Z z).

(** The four operations of [generateGNSSData] on the draws [d] and
    [r], once on the processor and once in this module. *)
Definition agrees_with_hardware (d r : Z) : bool :=
  let hf := PrimFloat.div (prim_of_Z r) (prim_of_Z 1000000) in
  let hv := PrimFloat.add (prim_of_Z d) hf in
  let hm := PrimFloat.mul (PrimFloat.sub hv (prim_of_Z d)) (prim_of_Z 60) in
  let f := div (inject_Z r) (inject_Z 1000000) in
  let v := add (inject_Z d) f in
  let m := mul (sub v (inject_Z d)) (inject_Z 60) in
  match of_prim hf, of_prim hv, of_prim hm with
  | Some qf, Some qv, Some qm =>
      Qeq_bool qf f && Qeq_bool qv v && Qeq_bool qm m
  | _, _, _ => false
  end.

End Binary64.

(* ================================================================== *)
(** ** The sender's environment: the clock and [rand()] *)

(** [std::tm], the fields the sender reads. *)
Record tm : Set := mk_tm {
  tm_sec : Z;
  tm_min : Z;
  tm_hour : Z;
  tm_mday : Z;
  tm_mon : Z;
  tm_year : Z
}.

(** What the sender cannot see from its own text: the broken-down time
    that [std::gmtime(std::time(0))] returns, and the numbers that
    the successive calls of [rand()] return.  [rand()] is never
    negative, so a draw is an [N]. *)
Record World : Type := mk_World {
  clock : tm;
  rand_seq : nat -> N;
  rand_pos : nat
}.

(** Computations that read the clock and consume random numbers. *)
Definition IO (A : Type) : Type := World -> A * World.

Definition ret {A} (a : A) : IO A := fun w => (a, w).

Definition bind {A B} (m : IO A) (k : A -> IO B) : IO B :=
  fun w => let (a, w') := m w in k a w'.

Notation "x <- m ;; k" := (bind m (fun x => k))
  (at level 61, m at next level, right associativity).

Definition gmtime_now : IO tm := fun w => (clock w, w).

Definition rand : IO N :=
  fun w => (rand_seq w (rand_pos w),
            mk_World (clock w) (rand_seq w) (S (rand_pos w))).

(* ================================================================== *)
(** ** [getFormattedTime], [getFormattedDate] *)

Definition getFormattedTime (timeStruct : tm) : string :=
  put_int_w2 (tm_hour timeStruct)
    ++ put_int_w2 (tm_min timeStruct)
    ++ put_int_w2 (tm_sec timeStruct)
    ++ ".00".

(** [%] on [int] truncates towards zero: [Z.rem]. *)
Definition getFormattedDate (timeStruct : tm) : string :=
  put_int_w2 (tm_mday timeStruct)
    ++ put_int_w2 (tm_mon timeStruct + 1)
    ++ put_int_w2 (Z.rem (tm_year timeStruct) 100).

(* ================================================================== *)
(** ** [generateGNSSData] *)

Definition LATITUDE_DEGREE_MAX : N := 90.
Definition LONGITUDE_DEGREE_MAX : N := 180.
Definition MINUTES_IN_DEGREE : N := 60.
Definition PRECISION_FACTOR : N := 1000000.

(** Conversion of an [unsigned] or an [int] below [2^32] to [double]
    is exact. *)
Definition double_of_N (n : N) : Q := inject_Z (Z.of_N n).
Definition double_of_int (z : Z) : Q := inject_Z z.

(** [(rand() % MAX) + ((double)(rand() % PRECISION_FACTOR)) / PRECISION_FACTOR],
    from the two draws. *)
Definition random_coordinate (MAX rdeg rfrac : N) : Q :=
  Binary64.add
    (double_of_N (rdeg mod MAX)%N)
    (Binary64.div (double_of_N (rfrac mod PRECISION_FACTOR)%N)
                  (double_of_N PRECISION_FACTOR)).

(** [(val - degrees) * MINUTES_IN_DEGREE]. *)
Definition minutes_of (val : Q) (degrees : Z) : Q :=
  Binary64.mul (Binary64.sub val (double_of_int degrees))
               (double_of_N MINUTES_IN_DEGREE).

Definition char_string (c : ascii) : string := String c EmptyString.

(** The body of [generateGNSSData], statement by statement.  The two
    calls of [rand()] inside one expression are taken left to right. *)
Definition generateGNSSData : IO string :=
  now <- gmtime_now ;;
  let utc := getFormattedTime now in
  let date := getFormattedDate now in
  r1 <- rand ;;
  r2 <- rand ;;
  let latVal := random_coordinate LATITUDE_DEGREE_MAX r1 r2 in
  r3 <- rand ;;
  r4 <- rand ;;
  let longVal := random_coordinate LONGITUDE_DEGREE_MAX r3 r4 in
  let latDegrees := Binary64.to_int latVal in
  let latMinutes := minutes_of latVal latDegrees in
  let longDegrees := Binary64.to_int longVal in
  let longMinutes := minutes_of longVal longDegrees in
  r5 <- rand ;;
  let latDirection := if (r5 mod 2 =? 0)%N then "N"%char else "S"%char in
  r6 <- rand ;;
  let lonDirection := if (r6 mod 2 =? 0)%N then "E"%char else "W"%char in
  r7 <- rand ;;
  let varDirection := if (r7 mod 2 =? 0)%N then "E"%char else "W"%char in
  let nmeaData := "$GPRMC," in
  let nmeaData := nmeaData ++ (utc ++ ",") in
  let nmeaData := nmeaData ++ "A," in
  let nmeaData := nmeaData ++ (to_string_int latDegrees
                     ++ Binary64.to_string latMinutes ++ ","
                     ++ char_string latDirection ++ ",") in
  let nmeaData := nmeaData ++ (to_string_int longDegrees
                     ++ Binary64.to_string longMinutes ++ ","
                     ++ char_string lonDirection ++ ",") in
  let nmeaData := nmeaData ++ "0.0,0.0," in
  let nmeaData := nmeaData ++ (date ++ ",") in
  let nmeaData := nmeaData ++ "0.0," in
  let nmeaData := nmeaData ++ char_string varDirection in
  let nmeaData := nmeaData ++ ",A" in
  let nmeaData := nmeaData ++ ("*" ++ calculateChecksum nmeaData) in
  ret nmeaData.

(** The values of the local variables once the directions are drawn:
    the position fix that the remaining statements format. *)
Record PositionFix : Type := mk_PositionFix {
  utc : string;
  date : string;
  latDegrees : Z;
  latMinutes : Q;
  latDirection : ascii;
  longDegrees : Z;
  longMinutes : Q;
  lonDirection : ascii;
  varDirection : ascii
}.

(** The first part of [generateGNSSData], up to the last draw. *)
Definition drawFix : IO PositionFix :=
  now <- gmtime_now ;;
  r1 <- rand ;;
  r2 <- rand ;;
  let latVal := random_coordinate LATITUDE_DEGREE_MAX r1 r2 in
  r3 <- rand ;;
  r4 <- rand ;;
  let longVal := random_coordinate LONGITUDE_DEGREE_MAX r3 r4 in
  r5 <- rand ;;
  r6 <- rand ;;
  r7 <- rand ;;
  ret {| utc := getFormattedTime now;
         date := getFormattedDate now;
         latDegrees := Binary64.to_int latVal;
         latMinutes := minutes_of latVal (Binary64.to_int latVal);
         latDirection := if (r5 mod 2 =? 0)%N then "N"%char else "S"%char;
         longDegrees := Binary64.to_int longVal;
         longMinutes := minutes_of longVal (Binary64.to_int longVal);
         lonDirection := if (r6 mod 2 =? 0)%N then "E"%char else "W"%char;
         varDirection := if (r7 mod 2 =? 0)%N then "E"%char else "W"%char |}.

(** The second part of [generateGNSSData]: the text built from the
    local variables. *)
Definition sentence_body (fix_ : PositionFix) : string :=
  "$GPRMC,"
    ++ (utc fix_ ++ ",")
    ++ "A,"
    ++ (to_string_int (latDegrees fix_)
          ++ Binary64.to_string (latMinutes fix_) ++ ","
          ++ char_string (latDirection fix_) ++ ",")
    ++ (to_string_int (longDegrees fix_)
          ++ Binary64.to_string (longMinutes fix_) ++ ","
          ++ char_string (lonDirection fix_) ++ ",")
    ++ "0.0,0.0,"
    ++ (date fix_ ++ ",")
    ++ "0.0,"
    ++ char_string (varDirection fix_)
    ++ ",A".

Definition encode (fix_ : PositionFix) : string :=
  let nmeaData := sentence_body fix_ in
  nmeaData ++ ("*" ++ calculateChecksum nmeaData).

(** A world whose clock shows [t] and whose [rand()] returns the
    elements of [draws] in turn, then zeros. *)
Definition world_of (t : tm) (draws : list N) : World :=
  mk_World t (fun i => nth i draws 0%N) 0.

(* ================================================================== *)
(** ** The receiver: [validateNMEAFormat] *)

(** [std::string::rfind(str, pos)]: the highest index not above [pos]
    at which [str] occurs in [s], or [npos] ([None]). *)
Fixpoint rfind_from (s str : string) (pos : nat) : option nat :=
  if String.eqb (String.substring pos (String.length str) s) str
  then Some pos
  else match pos with
       | O => None
       | S p => rfind_from s str p
       end.

Definition rfind (s str : string) (pos : nat) : option nat :=
  if (String.length str <=? String.length s)%nat
  then rfind_from s str (Nat.min (String.length s - String.length str) pos)
  else None.

(** [gnssData.rfind("$GPRMC", 0) == 0]; [npos] is not [0]. *)
Definition validateNMEAFormat (gnssData : string) : bool :=
  match rfind gnssData "$GPRMC" 0 with
  | Some O => true
  | _ => false
  end.

(* ================================================================== *)
(** ** The receiver: [storeValidData] *)

Definition insert_sql (gnssData : string) : string :=
  "INSERT INTO GNSS_DATA (NMEA_DATA) VALUES ('" ++ gnssData ++ "');".

(** [sql.c_str()] read as a C string: the text before the first NUL. *)
Definition c_str (s : string) : string :=
  match Str.split_first Ascii.zero s with
  | Some (pre, _) => pre
  | None => s
  end.

(* ================================================================== *)
(** ** The receiver: the loop of [main] *)

Module Receiver.

(** The statements of the loop, and the one after it. *)
Inductive Loc : Set :=
| L_while      (* while (running)                          *)
| L_loop       (* mosquitto_loop(mosq, -1, 1);             *)
| L_empty      (* if (!receivedMessage.empty())            *)
| L_log        (* logGNSSData(receivedMessage);            *)
| L_validate   (* bool isValid = validateNMEAFormat(...);  *)
| L_store      (* if (isValid) storeValidData(db, ...);    *)
| L_clear      (* receivedMessage.clear();                 *)
| L_exit.      (* the cleanup after the loop               *)

(** The two globals, the local [isValid], and the statement that
    [main] executes next. *)
Record State : Set := mk_State {
  pc : Loc;
  running : bool;
  receivedMessage : string;
  isValid : bool
}.

(** What happens next is chosen outside the program: a signal
    arrives and [handle_signal] runs, or [main] executes its next
    statement.  In the second case [deliveries] are the payloads
    that the transport hands to [on_message] should the statement be
    [mosquitto_loop], and [rc_ok] tells whether [sqlite3_exec]
    returns [SQLITE_OK] should the statement call it. *)
Inductive Input : Set :=
| Signal
| Run (deliveries : list string) (rc_ok : bool).

(** What the receiver does that can be seen from outside. *)
Inductive Event : Set :=
| CallLoop                          (* mosquitto_loop is entered *)
| Delivered (payload : string)      (* on_message is called *)
| Log (gnssData : string)           (* the line of logGNSSData *)
| Validate (gnssData : string) (ok : bool)
    (* validateNMEAFormat prints Valid or Invalid NMEA data *)
| Exec (sql : string) (rc_ok : bool)
    (* sqlite3_exec(db, sql), then the line that reports it *)
| SignalLine.                       (* the line of handle_signal *)

(** [on_message]: the payload overwrites the buffer. *)
Definition on_message (s : State) (payload : string) : State :=
  mk_State (pc s) (running s) payload (isValid s).

(** [logGNSSData]: one line on the console, with the data. *)
Definition logGNSSData (gnssData : string) : list Event :=
  [Log gnssData].

(** [storeValidData]: the statement is the concatenation, handed over
    as a C string; what is printed depends on the return code. *)
Definition storeValidData (gnssData : string) (rc_ok : bool) : list Event :=
  let sql := insert_sql gnssData in
  [Exec (c_str sql) rc_ok].

Definition handle_signal (s : State) : State :=
  mk_State (pc s) false (receivedMessage s) (isValid s).

Definition goto (l : Loc) (s : State) : State :=
  mk_State l (running s) (receivedMessage s) (isValid s).

Definition step (i : Input) (s : State) : State * list Event :=
  match i with
  | Signal => (handle_signal s, [SignalLine])
  | Run deliveries rc_ok =>
      match pc s with
      | L_while =>
          (goto (if running s then L_loop else L_exit) s, [])
      | L_loop =>
          (goto L_empty (fold_left on_message deliveries s),
           CallLoop :: List.map Delivered deliveries)
      | L_empty =>
          (goto (if String.eqb (receivedMessage s) "" then L_while
                 else L_log) s, [])
      | L_log =>
          (goto L_validate s, logGNSSData (receivedMessage s))
      | L_validate =>
          let ok := validateNMEAFormat (receivedMessage s) in
          (mk_State L_store (running s) (receivedMessage s) ok,
           [Validate (receivedMessage s) ok])
      | L_store =>
          (goto L_clear s,
           if isValid s then storeValidData (receivedMessage s) rc_ok
           else [])
      | L_clear =>
          (mk_State L_while (running s) "" (isValid s), [])
      | L_exit => (s, [])
      end
  end.

Fixpoint run (inputs : list Input) (s : State) : State * list Event :=
  match inputs with
  | [] => (s, [])
  | i :: rest =>
      let (s1, ev1) := step i s in
      let (s2, ev2) := run rest s1 in
      (s2, (ev1 ++ ev2)%list)
  end.

(** [main] reaches the loop with [running(true)] and
    [receivedMessage = ""]. *)
Definition init : State := mk_State L_while true "" false.

(** Projections of a trace. *)
Definition delivered (tr : list Event) : list string :=
  flat_map (fun e => match e with Delivered p => [p] | _ => [] end) tr.
Definition logged (tr : list Event) : list string :=
  flat_map (fun e => match e with Log m => [m] | _ => [] end) tr.
Definition validated (tr : list Event) : list string :=
  flat_map (fun e => match e with Validate m _ => [m] | _ => [] end) tr.
Definition executed (tr : list Event) : list string :=
  flat_map (fun e => match e with Exec q _ => [q] | _ => [] end) tr.
Definition polls (tr : list Event) : nat :=
  List.length (List.filter
    (fun e => match e with CallLoop => true | _ => false end) tr).

Definition steps (inputs : list Input) : nat :=
  List.length (List.filter
    (fun i => match i with Run _ _ => true | Signal => false end) inputs).

Definition run_count (i : Input) : nat :=
  match i with Signal => 0 | Run _ _ => 1 end.

Definition nonempty (m : string) : bool := negb (String.eqb m "").

(** [l1] is [l2] with some of its elements left out. *)
Inductive sublist {A : Type} : list A -> list A -> Prop :=
| sublist_nil : sublist [] []
| sublist_skip (x : A) (l1 l2 : list A) :
    sublist l1 l2 -> sublist l1 (x :: l2)
| sublist_keep (x : A) (l1 l2 : list A) :
    sublist l1 l2 -> sublist (x :: l1) (x :: l2).

(** The statement that [storeValidData] hands to [sqlite3_exec]. *)
Definition store_command (gnssData : string) : string :=
  c_str (insert_sql gnssData).

(** The statements executed for the messages of [l] that pass the
    validation. *)
Definition stored_of (l : list string) : list string :=
  List.map store_command (List.filter validateNMEAFormat l).

(** Once [running] is false: how often [mosquitto_loop],
    [logGNSSData], [validateNMEAFormat] and [sqlite3_exec] can still
    be called when [main] is at [l], and after how many statements
    the loop is left. *)
Definition polls_left (l : Loc) : nat :=
  match l with L_loop => 1 | _ => 0 end.
Definition logs_left (l : Loc) : nat :=
  match l with L_loop | L_empty | L_log => 1 | _ => 0 end.
Definition validations_left (l : Loc) : nat :=
  match l with L_loop | L_empty | L_log | L_validate => 1 | _ => 0 end.
Definition execs_left (l : Loc) : nat :=
  match l with
  | L_loop | L_empty | L_log | L_validate | L_store => 1
  | _ => 0
  end.
Definition steps_left (l : Loc) : nat :=
  match l with
  | L_while => 1 | L_loop => 7 | L_empty => 6 | L_log => 5
  | L_validate => 4 | L_store => 3 | L_clear => 2 | L_exit => 0
  end.

(** The message in the buffer that the current iteration has yet to
    log, to validate, to store. *)
Definition to_log (s : State) : list string :=
  match pc s with
  | L_empty => if String.eqb (receivedMessage s) "" then []
               else [receivedMessage s]
  | L_log => [receivedMessage s]
  | _ => []
  end.
Definition to_validate (s : State) : list string :=
  match pc s with L_validate => [receivedMessage s] | _ => [] end.
Definition to_execute (s : State) : list string :=
  match pc s with
  | L_store => if isValid s then [store_command (receivedMessage s)] else []
  | _ => []
  end.

(** Between two iterations the buffer is empty. *)
Definition between_iterations (l : Loc) : bool :=
  match l with L_while | L_loop | L_exit => true | _ => false end.

(** What relates the trace so far to the state reached. *)
Definition Inv (s : State) (tr : list Event) : Prop :=
  sublist (logged tr ++ to_log s)%list
          (List.filter nonempty (delivered tr))
  /\ logged tr = (validated tr ++ to_validate s)%list
  /\ stored_of (validated tr) = (executed tr ++ to_execute s)%list
  /\ (between_iterations (pc s) = true -> receivedMessage s = "").

End Receiver.

(* ================================================================== *)
(** ** The checksum and the sentence, in the words of the specification *)

Module ChecksumEngine.

(** XOR-fold of all bytes of [body]. *)
Definition compute (body : string) : N :=
  fold_left N.lxor (List.map N_of_ascii (list_ascii_of_string body)) 0%N.

Definition hex_digit (n : N) : ascii :=
  nth (N.to_nat n)
    ["0"; "1"; "2"; "3"; "4"; "5"; "6"; "7";
     "8"; "9"; "A"; "B"; "C"; "D"; "E"; "F"]%char "0"%char.

(** Two uppercase hexadecimal digits, zero-padded. *)
Definition toHex (b : N) : string :=
  String (hex_digit (b / 16)) (String (hex_digit (b mod 16)) EmptyString).

(** The byte that two uppercase hexadecimal digits denote. *)
Definition hex_value (c : ascii) : N :=
  let n := N_of_ascii c in
  if (n <=? 57)%N then (n - 48)%N else (n - 55)%N.

Definition ofHex (s : string) : N :=
  match s with
  | String a (String b EmptyString) => (16 * hex_value a + hex_value b)%N
  | _ => 0%N
  end.

(** The content between the leading [$] and the first [*], and what
    follows that [*]. *)
Definition body_and_suffix (sentence : string) : option (string * string) :=
  match sentence with
  | String "$" rest => Str.split_first "*" rest
  | _ => None
  end.

Definition to_upper (c : ascii) : ascii :=
  let n := N_of_ascii c in
  if ((97 <=? n) && (n <=? 122))%N then ascii_of_N (n - 32) else c.

(** Modelled from the spec: [verify], which the repository does not
    contain.  It recomputes [compute] over the text between [$] and
    [*] and compares it, without regard to case, with the hexadecimal
    digits after the [*]; it is false when there is no [*] (and when
    there is no leading [$], so no such text). *)
Definition verify (sentence : string) : bool :=
  match body_and_suffix sentence with
  | Some (body, suffix) =>
      String.eqb (Str.map to_upper suffix) (toHex (compute body))
  | None => false
  end.

(** The character [c] with bit [k] inverted. *)
Definition flip_bit (k : N) (c : ascii) : ascii :=
  ascii_of_N (N.lxor (N_of_ascii c) (2 ^ k)).

(** [body] with bit [k] of its character at index [i] inverted. *)
Fixpoint mutate (i : nat) (k : N) (body : string) : string :=
  match body with
  | EmptyString => EmptyString
  | String c r =>
      match i with
      | O => String (flip_bit k c) r
      | S j => String c (mutate j k r)
      end
  end.

End ChecksumEngine.

(** The outcome of validation in the specification: [ok], or the
    reason of the rejection. *)
Inductive Reason : Set := WrongPrefix | Malformed | ChecksumMismatch.

Record ValidationResult : Set := mk_ValidationResult {
  ok : bool;
  reason : option Reason
}.

(** [decodeAndValidate] as the specification words it: [ok] on a match
    of the prefix, [WrongPrefix] otherwise.  [validateNMEAFormat]
    returns the [ok] field alone. *)
Definition decodeAndValidate (raw : string) : ValidationResult :=
  if String.prefix "$GPRMC" raw
  then mk_ValidationResult true None
  else mk_ValidationResult false (Some WrongPrefix).

(** Character classes of a sentence. *)
Definition is_digit (c : ascii) : bool :=
  ((48 <=? N_of_ascii c) && (N_of_ascii c <=? 57))%N.

(** What the formatting of a number can print. *)
Definition num_char (c : ascii) : bool :=
  is_digit c || Ascii.eqb c "-" || Ascii.eqb c ".".

Definition is_upper_hex (c : ascii) : bool :=
  is_digit c || ((65 <=? N_of_ascii c) && (N_of_ascii c <=? 70))%N.

(** ASCII, and neither line feed nor carriage return. *)
Definition line_char (c : ascii) : bool :=
  (N_of_ascii c <? 128)%N
    && negb (N_of_ascii c =? 10)%N && negb (N_of_ascii c =? 13)%N.

(** A character of a field: of a line, and neither [,] nor [*]. *)
Definition field_char (c : ascii) : bool :=
  line_char c && negb (Ascii.eqb c ",") && negb (Ascii.eqb c "*").

(** [s] is [$GPRMC,], then [n] fields separated by commas, then [*]
    and two uppercase hexadecimal digits. *)
Definition sentence_shape (n : nat) (s : string) : Prop :=
  exists (fields : list string) (cs : string),
    s = "$GPRMC," ++ String.concat "," fields ++ "*" ++ cs
    /\ List.length fields = n
    /\ Forall (fun f => Str.all field_char f = true) fields
    /\ String.length cs = 2%nat
    /\ Str.all is_upper_hex cs = true.

(** The number of fields between [$GPRMC,] and the first [*]. *)
Definition field_count (s : string) : option nat :=
  match Str.drop_prefix "$GPRMC," s with
  | Some rest =>
      match Str.split_first "*" rest with
      | Some (fields, _) => Some (List.length (Str.split_on "," fields))
      | None => None
      end
  | None => None
  end.

(** Sample inputs: 10:45:12 UTC on 1 October 2024, and seven draws. *)
Definition sample_tm : tm := mk_tm 12 45 10 1 9 124.
Definition sample_world : World :=
  world_of sample_tm [37; 241712; 76; 972197; 0; 1; 0]%N.

(** The position fix that [generateGNSSData] draws in the world [w]. *)
Definition fix_of (w : World) : PositionFix := fst (drawFix w).

(** The fields of the sentence, in order. *)
Definition fields_of_fix (f : PositionFix) : list string :=
  [ utc f;
    "A";
    to_string_int (latDegrees f) ++ Binary64.to_string (latMinutes f);
    char_string (latDirection f);
    to_string_int (longDegrees f) ++ Binary64.to_string (longMinutes f);
    char_string (lonDirection f);
    "0.0";
    "0.0";
    date f;
    "0.0";
    char_string (varDirection f);
    "A" ].

(** The fix [f] with another latitude. *)
Definition with_latitude (f : PositionFix) (degrees : Z) (minutes : Q)
  : PositionFix :=
  mk_PositionFix (utc f) (date f) degrees minutes (latDirection f)
    (longDegrees f) (longMinutes f) (lonDirection f) (varDirection f).

(** The decimal text of [n] millionths, [0 <= n]: six digits after the
    point. *)
Definition millionths (n : Z) : string :=
  to_string_int (n / 1000000) ++ "."
    ++ Str.pad_left 6 "0"%char (to_string_int (n mod 1000000)).

(* ================================================================== *)
(** ** The sender: [gnssDataHandler] and [main] *)

Module Sender.

(** The calls of the sender into the library, and its lines on
    [std::cerr], in order. *)
Inductive Event : Set :=
| LibInit                             (* mosquitto_lib_init() *)
| New                                 (* mosquitto_new(NULL, true, NULL) *)
| CreateFailed                        (* Failed to create Mosquitto instance! *)
| PublishCallbackSet                  (* mosquitto_publish_callback_set *)
| Connect (host : string) (port keepalive : Z)
| ConnectFailed                       (* Unable to connect to the MQTT broker! *)
| Publish (topic : string) (payloadlen : nat) (payload : string)
          (qos : Z) (retain : bool)   (* mosquitto_publish *)
| PublishFailed (ret : Z)             (* Failed to publish GNSS data, error: *)
| Sleep (seconds : Z)                 (* std::this_thread::sleep_for *)
| Destroy                             (* mosquitto_destroy *)
| LibCleanup.                         (* mosquitto_lib_cleanup *)

(** What the library answers, and what the clock shows after each
    sleep. *)
Record Env : Type := mk_Env {
  new_ok : bool;
  connect_rc : Z;
  publish_rc : nat -> Z;
  clock_after : nat -> tm
}.

Definition MOSQ_ERR_SUCCESS : Z := 0.
Definition QOS_LEVEL : Z := 0.

(** [gnssDataHandler]: one sentence, one call of [mosquitto_publish]
    with its size and its bytes, one line when the call fails. *)
Definition gnssDataHandler (publish_ret : Z) : IO (list Event) :=
  gnssData <- generateGNSSData ;;
  let topic := "gnss/data" in
  ret (Publish topic (String.length gnssData) gnssData QOS_LEVEL false
         :: (if publish_ret =? MOSQ_ERR_SUCCESS then []
             else [PublishFailed publish_ret])).

(** The sleep: time passes, nothing else changes. *)
Definition sleep_for (shown_after : tm) : IO unit :=
  fun w => (tt, mk_World shown_after (rand_seq w) (rand_pos w)).

(** [for (int i = ...; i < 5; ++i)], with [n] iterations left. *)
Fixpoint publish_loop (env : Env) (i n : nat) : IO (list Event) :=
  match n with
  | O => ret []
  | S n' =>
      ev <- gnssDataHandler (publish_rc env i) ;;
      _ <- sleep_for (clock_after env i) ;;
      rest <- publish_loop env (S i) n' ;;
      ret (ev ++ Sleep 2 :: rest)%list
  end.

(** [main] of the sender: the exit status and what was called. *)
Definition main (env : Env) : IO (Z * list Event) :=
  if negb (new_ok env) then ret (1, [LibInit; New; CreateFailed])
  else if negb (connect_rc env =? 0) then
    ret (1, [LibInit; New; PublishCallbackSet;
             Connect "localhost" 1883 60; ConnectFailed])
  else
    evs <- publish_loop env 0 5 ;;
    ret (0, ([LibInit; New; PublishCallbackSet; Connect "localhost" 1883 60]
               ++ evs ++ [Destroy; LibCleanup])%list).

(** The payloads handed to [mosquitto_publish], in order. *)
Definition published (tr : list Event) : list string :=
  flat_map (fun e => match e with Publish _ _ p _ _ => [p] | _ => [] end) tr.

(** The world in which iteration [i] of the loop starts. *)
Definition world_at (env : Env) (w : World) (i : nat) : World :=
  mk_World (match i with O => clock w | S j => clock_after env j end)
           (rand_seq w) (7 * i + rand_pos w).

(** The calls of [mosquitto_publish], and the return codes reported
    on [std::cerr], in order. *)
Definition publish_calls (tr : list Event) : list Event :=
  List.filter (fun e => match e with Publish _ _ _ _ _ => true
                                   | _ => false end) tr.
Definition publish_failures (tr : list Event) : list Z :=
  flat_map (fun e => match e with PublishFailed r => [r] | _ => [] end) tr.

(** The call that [gnssDataHandler] makes for the sentence [s]. *)
Definition publish_of (s : string) : Event :=
  Publish "gnss/data" (String.length s) s QOS_LEVEL false.

End Sender.

(* ================================================================== *)
(** ** The receiver: [initDatabase] and [main] *)

Module ReceiverMain.

(** The calls of the receiver's [main] and of [initDatabase], their
    lines of output, and the events of the loop. *)
Inductive Event : Set :=
| SignalHandlersSet                   (* std::signal, twice *)
| SignalLine                          (* the line of handle_signal *)
| LibInit
| New
| CreateFailed                        (* Failed to create Mosquitto to client! *)
| SqliteOpen (file : string)
| OpenFailed                          (* Can't open database: *)
| Opened                              (* Opened database successfully. *)
| CreateTable (sql : string)          (* sqlite3_exec of the schema *)
| CreateTableFailed                   (* SQL error: *)
| TableCreated                        (* Table created successfully. *)
| MessageCallbackSet
| Connect (host : string) (port keepalive : Z)
| ConnectFailed                       (* Unable to connect to MQTT broker! *)
| Subscribe (topic : string) (qos : Z)
| SubscribeFailed                     (* Failed to subscribe to topic! *)
| Loop (e : Receiver.Event)
| SqliteClose
| Destroy
| LibCleanup.

(** What the libraries answer during the setup, and whether a signal
    arrives before the loop is reached.  Such a signal is taken at the
    earliest point, as soon as the handlers are installed:
    [handle_signal] prints its line and clears [running]; arriving
    later during the setup it does the same, later in the trace. *)
Record Env : Set := mk_Env {
  new_ok : bool;
  open_rc : Z;
  create_rc : Z;
  connect_rc : Z;
  subscribe_rc : Z;
  early_signal : bool
}.

Definition schema_sql : string :=
  "CREATE TABLE IF NOT EXISTS GNSS_DATA("
    ++ "ID INTEGER PRIMARY KEY AUTOINCREMENT,"
    ++ "NMEA_DATA TEXT NOT NULL);".

(** [initDatabase]: whether a handle is returned ([false] is
    [nullptr]), and what was called and printed. *)
Definition initDatabase (open_rc create_rc : Z) : bool * list Event :=
  if negb (open_rc =? 0) then
    (false, [SqliteOpen "gnss_data.db"; OpenFailed])
  else
    (true, [SqliteOpen "gnss_data.db"; Opened; CreateTable schema_sql;
            if negb (create_rc =? 0) then CreateTableFailed
            else TableCreated]).

(** [main] of the receiver on the inputs of its loop: the exit status
    once it returns, and what was called. *)
Definition main (env : Env) (inputs : list Receiver.Input)
  : option Z * list Event :=
  let pre := ([SignalHandlersSet]
                ++ (if early_signal env then [SignalLine] else [])
                ++ [LibInit; New])%list in
  if negb (new_ok env) then (Some (-1), (pre ++ [CreateFailed])%list)
  else
    let (db, ev_db) := initDatabase (open_rc env) (create_rc env) in
    if negb db then (Some (-1), (pre ++ ev_db)%list)
    else
      let pre := (pre ++ ev_db
                    ++ [MessageCallbackSet; Connect "localhost" 1883 60])%list in
      if negb (connect_rc env =? 0) then
        (Some (-1), (pre ++ [ConnectFailed])%list)
      else
        let pre := (pre ++ [Subscribe "gnss/data" 0])%list in
        if negb (subscribe_rc env =? 0) then
          (Some (-1), (pre ++ [SubscribeFailed])%list)
        else
          let start :=
            Receiver.mk_State Receiver.L_while (negb (early_signal env))
              "" false in
          let (s, tr) := Receiver.run inputs start in
          match Receiver.pc s with
          | Receiver.L_exit =>
              (Some 0, (pre ++ List.map Loop tr
                          ++ [SqliteClose; Destroy; LibCleanup])%list)
          | _ => (None, (pre ++ List.map Loop tr)%list)
          end.

(** The events of the loop in a trace of [main]. *)
Definition loop_events (tr : list Event) : list Receiver.Event :=
  flat_map (fun e => match e with Loop x => [x] | _ => [] end) tr.

Definition setup_ok (env : Env) : bool :=
  new_ok env && (open_rc env =? 0) && (connect_rc env =? 0)
    && (subscribe_rc env =? 0).

(** The state in which [main] reaches its loop. *)
Definition start (env : Env) : Receiver.State :=
  Receiver.mk_State Receiver.L_while (negb (early_signal env)) "" false.

Definition with_create_rc (env : Env) (rc : Z) : Env :=
  mk_Env (new_ok env) (open_rc env) rc (connect_rc env) (subscribe_rc env)
         (early_signal env).

End ReceiverMain.

(* ================================================================== *)
(** ** Sender and receiver together *)

(** The transport hands over each payload of [l] in a poll of its own:
    for each one, the seven statements of one iteration. *)
Definition one_per_poll (rc_ok : bool) (l : list string)
  : list Receiver.Input :=
  flat_map (fun m => Receiver.Run [] rc_ok :: Receiver.Run [m] rc_ok
                       :: repeat (Receiver.Run [] rc_ok) 5) l.

(* ================================================================== *)
(** ** Ranges and characters *)

(** The ranges that [std::gmtime] promises, for a year from 1900 on. *)
Definition valid_tm (t : tm) : Prop :=
  0 <= tm_sec t <= 60 /\ 0 <= tm_min t <= 59 /\ 0 <= tm_hour t <= 23
  /\ 1 <= tm_mday t <= 31 /\ 0 <= tm_mon t <= 11 /\ 0 <= tm_year t.

Definition is_upper (c : ascii) : bool :=
  ((65 <=? N_of_ascii c) && (N_of_ascii c <=? 90))%N.

(** The alphabet of a sentence. *)
Definition sentence_char (c : ascii) : bool :=
  is_digit c || is_upper c
    || Ascii.eqb c "$" || Ascii.eqb c "," || Ascii.eqb c "*"
    || Ascii.eqb c "." || Ascii.eqb c "-".

Fixpoint count_char (c : ascii) (s : string) : nat :=
  match s with
  | EmptyString => O
  | String a r => (if Ascii.eqb a c then 1 else 0) + count_char c r
  end.

(* ================================================================== *)
(** * Properties *)

(** ** Strings *)

Module StrFacts.

Lemma app_assoc (a b c : string) : (a ++ b) ++ c = a ++ (b ++ c).
Proof. induction a as [|x a IH]; simpl; [reflexivity | now rewrite IH]. Qed.

Lemma app_nil_r (a : string) : a ++ "" = a.
Proof. induction a as [|x a IH]; simpl; [reflexivity | now rewrite IH]. Qed.

Lemma length_app (a b : string) :
  String.length (a ++ b) = (String.length a + String.length b)%nat.
Proof. induction a as [|x a IH]; simpl; [reflexivity | now rewrite IH]. Qed.

Lemma all_app p (a b : string) :
  Str.all p (a ++ b) = Str.all p a && Str.all p b.
Proof.
  induction a as [|x a IH]; simpl; [reflexivity|].
  now rewrite IH, andb_assoc.
Qed.

Lemma all_impl (p q : ascii -> bool) (s : string) :
  (forall c, p c = true -> q c = true) ->
  Str.all p s = true -> Str.all q s = true.
Proof.
  intros Hpq. induction s as [|x s IH]; simpl; [reflexivity|].
  rewrite !andb_true_iff. intros [Hx Hs]. split; auto.
Qed.

Lemma all_replicate p n c : p c = true -> Str.all p (Str.replicate n c) = true.
Proof. intros Hc. induction n; simpl; [reflexivity | now rewrite Hc]. Qed.

Lemma all_pad_left p w c s :
  p c = true -> Str.all p s = true -> Str.all p (Str.pad_left w c s) = true.
Proof.
  intros Hc Hs. unfold Str.pad_left.
  now rewrite all_app, all_replicate, Hs.
Qed.

Lemma split_first_app c (pre post : string) :
  Str.all (Str.neqb c) pre = true ->
  Str.split_first c (pre ++ String c post) = Some (pre, post).
Proof.
  induction pre as [|x pre IH]; simpl.
  - intros _. now rewrite Ascii.eqb_refl.
  - unfold Str.neqb at 1. rewrite andb_true_iff, negb_true_iff.
    intros [Hx Hpre]. now rewrite Hx, IH.
Qed.

Lemma split_first_Some c (s pre post : string) :
  Str.split_first c s = Some (pre, post) ->
  s = pre ++ String c post /\ Str.all (Str.neqb c) pre = true.
Proof.
  revert pre. induction s as [|x s IH]; simpl; intros pre; [discriminate|].
  destruct (Ascii.eqb x c) eqn:Hx.
  - intros [= <- <-]. apply Ascii.eqb_eq in Hx. now subst.
  - destruct (Str.split_first c s) as [[p q]|]; [|discriminate].
    intros [= <- <-]. destruct (IH p eq_refl) as [-> Hp].
    split; [reflexivity|]. simpl. unfold Str.neqb at 1. now rewrite Hx, Hp.
Qed.

Lemma split_first_None c (s : string) :
  Str.all (Str.neqb c) s = true -> Str.split_first c s = None.
Proof.
  induction s as [|x s IH]; simpl; [reflexivity|].
  unfold Str.neqb at 1. rewrite andb_true_iff, negb_true_iff.
  intros [Hx Hs]. now rewrite Hx, IH.
Qed.

Lemma split_on_concat c (fields : list string) :
  fields <> [] ->
  Forall (fun f => Str.all (Str.neqb c) f = true) fields ->
  Str.split_on c (String.concat (String c "") fields) = fields.
Proof.
  intros Hne Hall. induction Hall as [|f fs Hf Hfs IH]; [congruence|].
  clear Hne. destruct fs as [|g fs].
  - simpl. clear IH Hfs.
    induction f as [|x f IHf]; simpl in *; [reflexivity|].
    unfold Str.neqb at 1 in Hf.
    apply andb_true_iff in Hf as [Hx Hf]. apply negb_true_iff in Hx.
    now rewrite Hx, (IHf Hf).
  - specialize (IH ltac:(discriminate)).
    change (String.concat (String c "") (f :: g :: fs))
      with (f ++ String c "" ++ String.concat (String c "") (g :: fs)).
    remember (String.concat (String c "") (g :: fs)) as rest eqn:Hrest.
    clear Hrest Hfs. induction f as [|x f IHf]; simpl.
    + now rewrite Ascii.eqb_refl, IH.
    + simpl in Hf. unfold Str.neqb at 1 in Hf.
      apply andb_true_iff in Hf as [Hx Hf]. apply negb_true_iff in Hx.
      rewrite Hx. simpl in IHf. now rewrite (IHf Hf).
Qed.

Lemma drop_prefix_app (p s : string) : Str.drop_prefix p (p ++ s) = Some s.
Proof.
  unfold Str.drop_prefix.
  assert (Hp : String.prefix p (p ++ s) = true).
  { induction p as [|x p IH]; simpl; [now destruct s|].
    destruct (ascii_dec x x); [exact IH | congruence]. }
  rewrite Hp, length_app. f_equal.
  replace (String.length p + String.length s - String.length p)%nat
    with (String.length s) by lia.
  induction p as [|x p IH]; simpl.
  - clear Hp. induction s as [|y s IHs]; simpl; [reflexivity|].
    now rewrite IHs.
  - apply IH. simpl in Hp. now destruct (ascii_dec x x).
Qed.

End StrFacts.

(** ** What the formatting functions print *)

Lemma is_digit_num_char c : is_digit c = true -> num_char c = true.
Proof. unfold num_char. now intros ->. Qed.

Lemma all_string_of_uint (d : Decimal.uint) :
  Str.all is_digit (NilEmpty.string_of_uint d) = true.
Proof. induction d; simpl; auto. Qed.

Lemma all_to_string_int (z : Z) : Str.all num_char (to_string_int z) = true.
Proof.
  assert (U : forall d, Str.all num_char (NilZero.string_of_uint d) = true).
  { intros d.
    apply StrFacts.all_impl with (p := is_digit); [exact is_digit_num_char|].
    destruct d; try apply all_string_of_uint. reflexivity. }
  unfold to_string_int, NilZero.string_of_int.
  destruct (Z.to_int z) as [d|d]; [apply U|].
  simpl. now rewrite U.
Qed.

Lemma all_put_int_w2 (x : Z) : Str.all num_char (put_int_w2 x) = true.
Proof.
  unfold put_int_w2.
  apply StrFacts.all_pad_left; [reflexivity | apply all_to_string_int].
Qed.

Lemma all_to_string_double (x : Q) :
  Str.all num_char (Binary64.to_string x) = true.
Proof.
  unfold Binary64.to_string.
  rewrite !StrFacts.all_app, !all_to_string_int.
  rewrite StrFacts.all_pad_left by (reflexivity || apply all_to_string_int).
  now destruct (Qlt_le_dec x 0).
Qed.

Lemma all_getFormattedTime t : Str.all num_char (getFormattedTime t) = true.
Proof.
  unfold getFormattedTime.
  now rewrite !StrFacts.all_app, !all_put_int_w2.
Qed.

Lemma all_getFormattedDate t : Str.all num_char (getFormattedDate t) = true.
Proof.
  unfold getFormattedDate.
  now rewrite !StrFacts.all_app, !all_put_int_w2.
Qed.

Lemma num_char_field_char c : num_char c = true -> field_char c = true.
Proof.
  destruct c as [[] [] [] [] [] [] [] []]; vm_compute; congruence.
Qed.

Lemma field_char_line_char c : field_char c = true -> line_char c = true.
Proof. unfold field_char. rewrite !andb_true_iff. tauto. Qed.

Lemma field_char_not_star c : field_char c = true -> Str.neqb "*" c = true.
Proof. unfold field_char, Str.neqb. rewrite !andb_true_iff. tauto. Qed.

Lemma field_char_not_comma c : field_char c = true -> Str.neqb "," c = true.
Proof. unfold field_char, Str.neqb. rewrite !andb_true_iff. tauto. Qed.

(** ** [calculateChecksum] computes [toHex (compute body)] *)

Lemma lxor_byte (a b : N) :
  (a < 256)%N -> (b < 256)%N -> (N.lxor a b < 256)%N.
Proof.
  intros Ha Hb.
  assert (L : forall n, (n < 256)%N -> (N.log2 n < 8)%N).
  { intros n Hn. destruct (N.eq_dec n 0) as [->|Hz]; [reflexivity|].
    apply N.log2_lt_pow2; [lia | exact Hn]. }
  destruct (N.eq_dec (N.lxor a b) 0) as [E|E]; [rewrite E; reflexivity|].
  change 256%N with (2 ^ 8)%N. apply N.log2_lt_pow2; [lia|].
  pose proof (N.log2_lxor a b). pose proof (L a Ha). pose proof (L b Hb). lia.
Qed.

Lemma xor_loop_fold (s : string) (acc : N) :
  (acc < 256)%N ->
  xor_loop acc s
    = fold_left N.lxor (List.map N_of_ascii (list_ascii_of_string s)) acc
  /\ (xor_loop acc s < 256)%N.
Proof.
  revert acc. induction s as [|c s IH]; intros acc Hacc; simpl.
  - now split.
  - pose proof (lxor_byte acc (N_of_ascii c) Hacc (N_ascii_bounded c)) as Hx.
    unfold xor_step. rewrite N.mod_small by exact Hx. now apply IH.
Qed.

Lemma compute_byte (body : string) : (ChecksumEngine.compute body < 256)%N.
Proof.
  unfold ChecksumEngine.compute.
  destruct (xor_loop_fold body 0%N) as [<- H]; [reflexivity | exact H].
Qed.

Lemma put_hex_w2_toHex (n : N) :
  (n < 256)%N -> put_hex_w2 n = ChecksumEngine.toHex n.
Proof.
  intros Hn.
  assert (T : forallb (fun k => String.eqb (put_hex_w2 (N.of_nat k))
                                  (ChecksumEngine.toHex (N.of_nat k)))
                (seq 0 256) = true) by (vm_compute; reflexivity).
  rewrite forallb_forall in T.
  specialize (T (N.to_nat n)). rewrite N2Nat.id in T.
  apply String.eqb_eq, T, in_seq. lia.
Qed.

Lemma calculateChecksum_spec (c : ascii) (body : string) :
  calculateChecksum (String c body)
    = ChecksumEngine.toHex (ChecksumEngine.compute body).
Proof.
  unfold calculateChecksum, ChecksumEngine.compute.
  destruct (xor_loop_fold body 0%N) as [E H]; [reflexivity|].
  rewrite <- E. now apply put_hex_w2_toHex.
Qed.

Lemma toHex_shape (b : N) :
  (b < 256)%N ->
  String.length (ChecksumEngine.toHex b) = 2%nat
  /\ Str.all is_upper_hex (ChecksumEngine.toHex b) = true.
Proof.
  intros Hb. split; [reflexivity|].
  assert (T : forallb (fun k => Str.all is_upper_hex
                                  (ChecksumEngine.toHex (N.of_nat k)))
                (seq 0 256) = true) by (vm_compute; reflexivity).
  rewrite forallb_forall in T.
  specialize (T (N.to_nat b)). rewrite N2Nat.id in T.
  apply T, in_seq. lia.
Qed.

(** ** [generateGNSSData]: the sentence and its fields *)

Lemma generateGNSSData_encode (w : World) :
  generateGNSSData w = (encode (fix_of w), snd (drawFix w)).
Proof.
  unfold generateGNSSData, fix_of, drawFix, encode, sentence_body,
    bind, ret, gmtime_now, rand.
  cbn [fst snd clock rand_seq rand_pos utc date latDegrees latMinutes
       latDirection longDegrees longMinutes lonDirection varDirection].
  rewrite !StrFacts.app_assoc. reflexivity.
Qed.

Lemma sentence_body_concat (f : PositionFix) :
  sentence_body f = "$GPRMC," ++ String.concat "," (fields_of_fix f).
Proof.
  unfold sentence_body, fields_of_fix, String.concat.
  rewrite !StrFacts.app_assoc. reflexivity.
Qed.

Lemma direction_field_char (b : bool) (x y : ascii) :
  field_char x = true -> field_char y = true ->
  Str.all field_char (char_string (if b then x else y)) = true.
Proof. intros Hx Hy. destruct b; simpl; now rewrite ?Hx, ?Hy. Qed.

Lemma num_field (s : string) :
  Str.all num_char s = true -> Str.all field_char s = true.
Proof. apply StrFacts.all_impl, num_char_field_char. Qed.

Lemma fields_of_drawn (w : World) :
  Forall (fun f => Str.all field_char f = true) (fields_of_fix (fix_of w)).
Proof.
  unfold fields_of_fix, fix_of, drawFix, bind, ret, gmtime_now, rand.
  cbn [fst snd clock rand_seq rand_pos utc date latDegrees latMinutes
       latDirection longDegrees longMinutes lonDirection varDirection].
  repeat apply Forall_cons; try apply Forall_nil;
    try reflexivity;
    try (apply direction_field_char; reflexivity);
    apply num_field;
    rewrite ?StrFacts.all_app, ?all_to_string_int, ?all_to_string_double;
    auto using all_getFormattedTime, all_getFormattedDate.
Qed.

Lemma all_concat p (sep : string) (fields : list string) :
  Str.all p sep = true ->
  Forall (fun f => Str.all p f = true) fields ->
  Str.all p (String.concat sep fields) = true.
Proof.
  intros Hsep Hall. induction Hall as [|f fs Hf Hfs IH]; [reflexivity|].
  destruct fs as [|g fs]; [exact Hf|].
  change (String.concat sep (f :: g :: fs))
    with (f ++ sep ++ String.concat sep (g :: fs)).
  now rewrite !StrFacts.all_app, Hf, Hsep, IH.
Qed.

Lemma Forall_all_impl (p q : ascii -> bool) (fields : list string) :
  (forall c, p c = true -> q c = true) ->
  Forall (fun f => Str.all p f = true) fields ->
  Forall (fun f => Str.all q f = true) fields.
Proof.
  intros Hpq. apply Forall_impl. intros f. now apply StrFacts.all_impl.
Qed.

(** A text of the shape of a sentence has its fields counted by
    [field_count]. *)
Lemma sentence_shape_count (n : nat) (s : string) :
  (0 < n)%nat -> sentence_shape n s -> field_count s = Some n.
Proof.
  intros Hn (fields & cs & -> & Hlen & Hall & _ & _).
  unfold field_count. rewrite StrFacts.drop_prefix_app.
  change ("*" ++ cs) with (String "*" cs).
  rewrite StrFacts.split_first_app.
  - rewrite StrFacts.split_on_concat; [now rewrite Hlen | |].
    + intros ->. simpl in Hlen. lia.
    + eapply Forall_all_impl; [exact field_char_not_comma | exact Hall].
  - apply all_concat; [reflexivity|].
    eapply Forall_all_impl; [exact field_char_not_star | exact Hall].
Qed.

(** ** [validateNMEAFormat] is the test of the prefix *)

Lemma validateNMEAFormat_app (rest : string) :
  validateNMEAFormat ("$GPRMC" ++ rest) = true.
Proof.
  unfold validateNMEAFormat, rfind. simpl String.length.
  simpl Nat.leb. cbv iota. rewrite Nat.min_0_r.
  unfold rfind_from. simpl. destruct rest; reflexivity.
Qed.

Lemma validateNMEAFormat_inv (s : string) :
  validateNMEAFormat s = true -> exists rest, s = "$GPRMC" ++ rest.
Proof.
  unfold validateNMEAFormat, rfind.
  destruct (String.length "$GPRMC" <=? String.length s)%nat eqn:Hlen;
    [|discriminate].
  rewrite Nat.min_0_r. unfold rfind_from.
  destruct (String.eqb (String.substring 0 (String.length "$GPRMC") s)
              "$GPRMC") eqn:E; [|discriminate].
  intros _. apply String.eqb_eq in E.
  destruct s as [|c1 [|c2 [|c3 [|c4 [|c5 [|c6 r]]]]]]; try discriminate.
  simpl in E. injection E as -> -> -> -> -> -> _. now exists r.
Qed.

Lemma prefix_app_iff (p s : string) :
  String.prefix p s = true <-> exists rest, s = p ++ rest.
Proof.
  split.
  - revert s. induction p as [|x p IH]; intros s H.
    + now exists s.
    + destruct s as [|y s]; [discriminate|]. simpl in H.
      destruct (ascii_dec x y) as [->|]; [|discriminate].
      destruct (IH s H) as [rest ->]. now exists rest.
  - intros [rest ->]. induction p as [|x p IH]; simpl.
    + now destruct rest.
    + destruct (ascii_dec x x); [exact IH | congruence].
Qed.

Lemma validateNMEAFormat_prefix (s : string) :
  validateNMEAFormat s = String.prefix "$GPRMC" s.
Proof.
  destruct (validateNMEAFormat s) eqn:V.
  - symmetry. apply prefix_app_iff. now apply validateNMEAFormat_inv.
  - destruct (String.prefix "$GPRMC" s) eqn:P; [|reflexivity].
    apply prefix_app_iff in P as [rest ->].
    now rewrite validateNMEAFormat_app in V.
Qed.

Lemma body_and_suffix_app (body suffix : string) :
  Str.all (Str.neqb "*") body = true ->
  ChecksumEngine.body_and_suffix ("$" ++ body ++ "*" ++ suffix)
    = Some (body, suffix).
Proof.
  intros H. cbn [append ChecksumEngine.body_and_suffix].
  now apply StrFacts.split_first_app.
Qed.

(** Every generated sentence is [$], a body without [*], [*] and the
    checksum of the body. *)
Lemma generated_sentence_split (w : World) :
  exists body : string,
    fst (generateGNSSData w)
      = "$" ++ body ++ "*"
          ++ ChecksumEngine.toHex (ChecksumEngine.compute body)
    /\ Str.all (Str.neqb "*") body = true.
Proof.
  rewrite generateGNSSData_encode. cbn [fst]. unfold encode.
  rewrite sentence_body_concat.
  set (fields := String.concat "," (fields_of_fix (fix_of w))).
  exists ("GPRMC," ++ fields). split.
  - change ("$GPRMC," ++ fields) with (String "$" ("GPRMC," ++ fields)).
    rewrite calculateChecksum_spec. reflexivity.
  - rewrite StrFacts.all_app. simpl Str.all at 1. cbn [andb].
    apply all_concat; [reflexivity|].
    eapply Forall_all_impl; [exact field_char_not_star|].
    apply fields_of_drawn.
Qed.

(* ================================================================== *)
(** * The sentence of the sender *)

(** C1.  In every sentence that [generateGNSSData] returns, the characters
    after the [*] are the two uppercase hexadecimal digits of the XOR of
    all bytes strictly between the leading [$] and the [*]: the sentence
    is [$], a body without [*], [*], and [toHex (compute body)]. *)
Theorem generated_checksum_field (w : World) :
  exists body : string,
    ChecksumEngine.body_and_suffix (fst (generateGNSSData w))
      = Some (body, ChecksumEngine.toHex (ChecksumEngine.compute body))
    /\ fst (generateGNSSData w)
       = "$" ++ body ++ "*"
           ++ ChecksumEngine.toHex (ChecksumEngine.compute body)
    /\ Str.all (Str.neqb "*") body = true.
Proof.
  destruct (generated_sentence_split w) as (body & E & Hstar).
  exists body. rewrite E.
  split; [|split; [reflexivity | exact Hstar]].
  now apply body_and_suffix_app.
Qed.

(** C2.  Round trip: whatever the clock shows and whatever [rand()]
    returns, the sentence of [generateGNSSData] is accepted by
    [validateNMEAFormat]; so is the encoding of any position fix. *)
Theorem generated_sentence_accepted (w : World) :
  validateNMEAFormat (fst (generateGNSSData w)) = true
  /\ ok (decodeAndValidate (fst (generateGNSSData w))) = true
  /\ forall f : PositionFix, validateNMEAFormat (encode f) = true.
Proof.
  assert (A : forall f : PositionFix, validateNMEAFormat (encode f) = true).
  { intros f. unfold encode, sentence_body.
    change "$GPRMC," with ("$GPRMC" ++ ",").
    rewrite !StrFacts.app_assoc. apply validateNMEAFormat_app. }
  rewrite generateGNSSData_encode. cbn [fst].
  split; [apply A | split; [|exact A]].
  unfold decodeAndValidate.
  now rewrite <- validateNMEAFormat_prefix, A.
Qed.

(* ================================================================== *)
(** * The validator of the receiver *)

(** C3.  [validateNMEAFormat] returns true exactly on the strings that
    begin with [$GPRMC]; it is the [ok] field of the specification's
    [decodeAndValidate], whose reason is [WrongPrefix] whenever the
    result is false; and nothing after the prefix is read: every
    continuation of [$GPRMC] is accepted, among them a sentence whose
    checksum field is wrong. *)
Theorem validateNMEAFormat_prefix_only (raw : string) :
  (validateNMEAFormat raw = true <-> exists rest, raw = "$GPRMC" ++ rest)
  /\ validateNMEAFormat raw = ok (decodeAndValidate raw)
  /\ (validateNMEAFormat raw = false ->
      decodeAndValidate raw = mk_ValidationResult false (Some WrongPrefix))
  /\ (forall rest, validateNMEAFormat ("$GPRMC" ++ rest) = true)
  /\ (validateNMEAFormat "$GPRMC,*00" = true
      /\ ChecksumEngine.verify "$GPRMC,*00" = false).
Proof.
  repeat split.
  - apply validateNMEAFormat_inv.
  - intros [rest ->]. apply validateNMEAFormat_app.
  - rewrite validateNMEAFormat_prefix. unfold decodeAndValidate.
    now destruct (String.prefix "$GPRMC" raw).
  - rewrite validateNMEAFormat_prefix. unfold decodeAndValidate.
    now intros ->.
  - apply validateNMEAFormat_app.
Qed.

Lemma validateNMEAFormat_prefix_only_witness :
  validateNMEAFormat "$GPGGA,104512.00*5B" = false
  /\ decodeAndValidate "$GPGGA,104512.00*5B"
     = mk_ValidationResult false (Some WrongPrefix).
Proof.
  split; [reflexivity|].
  apply (proj1 (proj2 (proj2
           (validateNMEAFormat_prefix_only "$GPGGA,104512.00*5B")))).
  reflexivity.
Defined.

(* ================================================================== *)
(** * The shape of a sentence *)

(** C4, as the claim states it, fails on the sample input: the sentence
    has twelve fields between [$GPRMC,] and [*], not eleven. *)
Lemma sample_sentence_not_eleven_fields :
  ~ sentence_shape 11 (fst (generateGNSSData sample_world)).
Proof.
  intros H. apply sentence_shape_count in H; [|lia].
  vm_compute in H. discriminate.
Qed.

(** C4, amended.  Every sentence of [generateGNSSData] is [$GPRMC,]
    followed by twelve fields separated by commas, then [*] and two
    uppercase hexadecimal digits; every character is ASCII and none is
    a line feed or a carriage return.  The twelve fields are those of
    the fix that was drawn, in the order of [fields_of_fix]: time,
    status [A], latitude, [N] or [S], longitude, [E] or [W], speed
    [0.0], course [0.0], date, variation [0.0], its direction [E] or
    [W], and the mode indicator [A]. *)
Theorem generated_sentence_shape (w : World) :
  sentence_shape 12 (fst (generateGNSSData w))
  /\ Str.all line_char (fst (generateGNSSData w)) = true
  /\ (exists cs : string,
        fst (generateGNSSData w)
        = "$GPRMC,"
            ++ String.concat ","
                 [ getFormattedTime (clock w);
                   "A";
                   to_string_int (latDegrees (fix_of w))
                     ++ Binary64.to_string (latMinutes (fix_of w));
                   char_string (latDirection (fix_of w));
                   to_string_int (longDegrees (fix_of w))
                     ++ Binary64.to_string (longMinutes (fix_of w));
                   char_string (lonDirection (fix_of w));
                   "0.0";
                   "0.0";
                   getFormattedDate (clock w);
                   "0.0";
                   char_string (varDirection (fix_of w));
                   "A" ]
            ++ "*" ++ cs
        /\ String.length cs = 2%nat /\ Str.all is_upper_hex cs = true)
  /\ (latDirection (fix_of w) = "N"%char \/ latDirection (fix_of w) = "S"%char)
  /\ (lonDirection (fix_of w) = "E"%char \/ lonDirection (fix_of w) = "W"%char)
  /\ (varDirection (fix_of w) = "E"%char \/ varDirection (fix_of w) = "W"%char).
Proof.
  assert (Dir : forall (b : bool) (x y : ascii),
            (if b then x else y) = x \/ (if b then x else y) = y)
    by (intros []; auto).
  assert (D : (latDirection (fix_of w) = "N"%char
               \/ latDirection (fix_of w) = "S"%char)
              /\ (lonDirection (fix_of w) = "E"%char
                  \/ lonDirection (fix_of w) = "W"%char)
              /\ (varDirection (fix_of w) = "E"%char
                  \/ varDirection (fix_of w) = "W"%char)).
  { unfold fix_of, drawFix, bind, ret, gmtime_now, rand.
    cbn [fst snd clock rand_seq rand_pos latDirection lonDirection
         varDirection].
    repeat split; apply Dir. }
  assert (L : fields_of_fix (fix_of w)
              = [ getFormattedTime (clock w);
                  "A";
                  to_string_int (latDegrees (fix_of w))
                    ++ Binary64.to_string (latMinutes (fix_of w));
                  char_string (latDirection (fix_of w));
                  to_string_int (longDegrees (fix_of w))
                    ++ Binary64.to_string (longMinutes (fix_of w));
                  char_string (lonDirection (fix_of w));
                  "0.0";
                  "0.0";
                  getFormattedDate (clock w);
                  "0.0";
                  char_string (varDirection (fix_of w));
                  "A" ]) by reflexivity.
  rewrite <- L. clear L.
  cut (sentence_shape 12 (fst (generateGNSSData w))
       /\ Str.all line_char (fst (generateGNSSData w)) = true
       /\ exists cs : string,
            fst (generateGNSSData w)
            = "$GPRMC," ++ String.concat "," (fields_of_fix (fix_of w))
                ++ "*" ++ cs
            /\ String.length cs = 2%nat /\ Str.all is_upper_hex cs = true).
  { intros (A & B & C). split; [exact A|]. split; [exact B|].
    split; [exact C | exact D]. }
  clear D Dir.
  rewrite generateGNSSData_encode. cbn [fst]. unfold encode.
  rewrite sentence_body_concat.
  pose proof (fields_of_drawn w) as Hf.
  set (fields := fields_of_fix (fix_of w)) in *.
  set (body := "$GPRMC," ++ String.concat "," fields).
  assert (Hc : calculateChecksum body
               = ChecksumEngine.toHex
                   (ChecksumEngine.compute ("GPRMC," ++ String.concat "," fields)))
    by apply calculateChecksum_spec.
  rewrite Hc.
  destruct (toHex_shape _ (compute_byte ("GPRMC," ++ String.concat "," fields)))
    as [Hlen Hhex].
  split; [|split].
  - exists fields, (ChecksumEngine.toHex
                      (ChecksumEngine.compute
                         ("GPRMC," ++ String.concat "," fields))).
    unfold body. rewrite StrFacts.app_assoc.
    repeat split; auto.
  - assert (H1 : Str.all line_char (String.concat "," fields) = true).
    { apply all_concat; [reflexivity|].
      eapply Forall_all_impl; [exact field_char_line_char | exact Hf]. }
    assert (H2 : Str.all line_char
                   (ChecksumEngine.toHex
                      (ChecksumEngine.compute
                         ("GPRMC," ++ String.concat "," fields))) = true).
    { eapply StrFacts.all_impl; [|exact Hhex].
      intros c. destruct c as [[] [] [] [] [] [] [] []];
        vm_compute; congruence. }
    unfold body. rewrite !StrFacts.all_app, H1, H2. reflexivity.
  - exists (ChecksumEngine.toHex
              (ChecksumEngine.compute
                 ("GPRMC," ++ String.concat "," fields))).
    unfold body. rewrite StrFacts.app_assoc.
    repeat split; auto.
Qed.

(* ================================================================== *)
(** * Determinism of the encoding *)




(* ================================================================== *)
(** * Rounding to binary64 *)

Module Binary64Facts.
Import Binary64.
#[local] Open Scope Q_scope.

Lemma inject_Z_pos (z : Z) : (0 < z)%Z -> 0 < inject_Z z.
Proof. intros H. unfold Qlt. simpl. lia. Qed.

Lemma pow2_pos (e : Z) : 0 < pow2 e.
Proof.
  unfold pow2. destruct (0 <=? e)%Z eqn:E.
  - apply inject_Z_pos, Z.pow_pos_nonneg; lia.
  - reflexivity.
Qed.

Lemma pow2_inv (e : Z) : (e <= 0)%Z -> pow2 e * inject_Z (2 ^ (- e)) == 1.
Proof.
  intros He. unfold pow2. destruct (0 <=? e)%Z eqn:E.
  - assert (e = 0%Z) as -> by lia. reflexivity.
  - assert (0 < 2 ^ (- e))%Z by (apply Z.pow_pos_nonneg; lia).
    unfold Qeq, Qmult. cbn [Qnum Qden inject_Z].
    rewrite Pos.mul_1_r, Z2Pos.id by assumption. lia.
Qed.

Lemma rne_bounds (y : Q) :
  inject_Z (rne y) - (1 # 2) <= y /\ y <= inject_Z (rne y) + (1 # 2).
Proof.
  unfold rne.
  pose proof (Qfloor_le y) as Hlo. pose proof (Qlt_floor y) as Hhi.
  rewrite inject_Z_plus in Hhi. change (inject_Z 1) with 1 in Hhi.
  destruct (y - inject_Z (Qfloor y) ?= 1 # 2) eqn:C.
  - apply Qeq_alt in C.
    destruct (Z.even (Qfloor y)); rewrite ?inject_Z_plus;
      change (inject_Z 1) with 1; split; lra.
  - apply Qlt_alt in C. split; lra.
  - apply Qgt_alt in C. rewrite inject_Z_plus.
    change (inject_Z 1) with 1. split; lra.
Qed.

Lemma rne_comp (x y : Q) : x == y -> rne x = rne y.
Proof.
  intros H. unfold rne.
  assert (F : Qfloor x = Qfloor y) by now apply Qfloor_comp.
  rewrite F.
  assert (C : (x - inject_Z (Qfloor y) ?= 1 # 2)
              = (y - inject_Z (Qfloor y) ?= 1 # 2)).
  { apply Qcompare_comp; [now rewrite H | reflexivity]. }
  now rewrite C.
Qed.

Lemma rne_ge_floor (y : Q) : (Qfloor y <= rne y)%Z.
Proof.
  unfold rne. destruct (y - inject_Z (Qfloor y) ?= 1 # 2); try lia.
  destruct (Z.even (Qfloor y)); lia.
Qed.

Lemma rne_ge_Z (k : Z) (y : Q) : inject_Z k <= y -> (k <= rne y)%Z.
Proof.
  intros H. apply Qfloor_resp_le in H. rewrite Qfloor_Z in H.
  pose proof (rne_ge_floor y). lia.
Qed.

Lemma floor_log2_lt (k : Z) (x : Q) :
  (0 <= k)%Z -> 0 < x -> x < inject_Z (2 ^ k) -> (floor_log2 x < k)%Z.
Proof.
  intros Hk Hx Hlt. unfold floor_log2.
  set (l := (Z.log2 (Qnum x) - Z.log2 (Z.pos (Qden x)))%Z).
  destruct (Qle_bool (pow2 l) x) eqn:B.
  - apply Qle_bool_iff in B.
    destruct (Z_lt_le_dec l k) as [|Hge]; [assumption|exfalso].
    unfold pow2 in B. replace (0 <=? l)%Z with true in B
      by (symmetry; apply Z.leb_le; lia).
    assert (inject_Z (2 ^ k) <= inject_Z (2 ^ l))
      by (rewrite <- Zle_Qle; apply Z.pow_le_mono_r; lia).
    lra.
  - enough (l <= k)%Z by lia. unfold l.
    destruct x as [n d]. unfold Qlt in Hlt, Hx.
    cbn [Qnum Qden inject_Z] in *.
    assert (Hn : (n <= Z.pos d * 2 ^ k)%Z) by lia.
    apply Z.log2_le_mono in Hn.
    rewrite Z.log2_mul_pow2 in Hn by lia. lia.
Qed.

Lemma ulp_exp_below_256 (x : Q) :
  0 < x -> x < 256 -> (ulp_exp x <= -45)%Z.
Proof.
  intros H0 H1. unfold ulp_exp.
  assert (E : Qabs x == x) by (apply Qabs_pos; lra).
  assert (floor_log2 (Qabs x) < 8)%Z.
  { apply floor_log2_lt; [lia | lra | change (inject_Z (2 ^ 8)) with 256; lra]. }
  lia.
Qed.

(** The shape of [round x] for [0 < x < 2^8]: an integer [r] divided
    by a power of two [P] that is at least [2^45], with [r] the
    integer nearest to [x * P]. *)
Lemma round_below_256 (x : Q) :
  0 < x -> x < 256 ->
  exists P : Z,
    (35184372088832 <= P)%Z
    /\ round x * inject_Z P == inject_Z (rne (x * inject_Z P)).
Proof.
  intros H0 H1. pose proof (ulp_exp_below_256 x H0 H1) as He.
  unfold round.
  destruct (Qeq_bool x 0) eqn:Z0; [apply Qeq_bool_iff in Z0; lra|].
  cbv zeta. set (e := ulp_exp x) in *.
  exists (2 ^ (- e))%Z.
  pose proof (pow2_inv e ltac:(lia)) as Hinv.
  pose proof (pow2_pos e) as Hp.
  split.
  - change 35184372088832%Z with (2 ^ 45)%Z. apply Z.pow_le_mono_r; lia.
  - rewrite Qred_correct.
    assert (Hy : x / pow2 e == x * inject_Z (2 ^ (- e))).
    { setoid_replace (inject_Z (2 ^ (- e))) with (/ pow2 e); [reflexivity|].
      apply Qmult_inj_l with (z := pow2 e); [lra|].
      rewrite Hinv. field. lra. }
    rewrite (rne_comp _ _ Hy). rewrite <- Qmult_assoc, Hinv. ring.
Qed.

Lemma round_0 (x : Q) : x == 0 -> round x = 0.
Proof.
  intros H. unfold round.
  replace (Qeq_bool x 0) with true; [reflexivity|].
  symmetry. now apply Qeq_bool_iff.
Qed.

(** One rounding moves a value below [2^8] by at most [2^-46]. *)
Lemma round_bounds (x : Q) :
  0 <= x -> x < 256 ->
  x - half_ulp_8 <= round x /\ round x <= x + half_ulp_8.
Proof.
  intros H0 H1. unfold half_ulp_8.
  destruct (Qeq_dec x 0) as [E|E].
  - rewrite (round_0 x E). lra.
  - destruct (round_below_256 x) as (P & HP & HR); [lra | lra |].
    pose proof (rne_bounds (x * inject_Z P)) as [B1 B2].
    rewrite <- HR in B1, B2.
    assert (HPq : 35184372088832 <= inject_Z P).
    { change 35184372088832 with (inject_Z 35184372088832).
      now rewrite <- Zle_Qle. }
    set (p := inject_Z P) in *. set (r := round x) in *.
    split; nra.
Qed.

(** Rounding never crosses an integer. *)
Lemma round_ge_Z (k : Z) (x : Q) :
  0 <= x -> x < 256 -> inject_Z k <= x -> inject_Z k <= round x.
Proof.
  intros H0 H1 Hk.
  destruct (Qeq_dec x 0) as [E|E].
  - rewrite (round_0 x E). lra.
  - destruct (round_below_256 x) as (P & HP & HR); [lra | lra |].
    assert (HPq : 35184372088832 <= inject_Z P).
    { change 35184372088832 with (inject_Z 35184372088832).
      now rewrite <- Zle_Qle. }
    assert (Hm : inject_Z (k * P) <= x * inject_Z P).
    { rewrite inject_Z_mult. nra. }
    apply rne_ge_Z in Hm. rewrite Zle_Qle, <- HR, inject_Z_mult in Hm.
    set (p := inject_Z P) in *. set (r := round x) in *. nra.
Qed.

Lemma to_int_floor (x : Q) (d : Z) :
  inject_Z d <= x -> x < inject_Z d + 1 -> (0 <= d)%Z -> to_int x = d.
Proof.
  intros Hlo Hhi Hd. unfold to_int.
  assert (H0 : (0 <= Qnum x)%Z).
  { assert (0 <= x)
      by (rewrite Zle_Qle in Hd; change (inject_Z 0) with 0 in Hd; lra).
    unfold Qle in H. simpl in H. lia. }
  rewrite Z.quot_div_nonneg by lia.
  assert (Hfl : (Qnum x / Z.pos (Qden x))%Z = Qfloor x) by now destruct x.
  rewrite Hfl.
  pose proof (Qfloor_le x) as F1. pose proof (Qlt_floor x) as F2.
  rewrite inject_Z_plus in F2. change (inject_Z 1) with 1 in F2.
  assert (A : inject_Z (Qfloor x) < inject_Z (d + 1))
    by (rewrite inject_Z_plus; change (inject_Z 1) with 1; lra).
  assert (B : inject_Z d < inject_Z (Qfloor x + 1))
    by (rewrite inject_Z_plus; change (inject_Z 1) with 1; lra).
  rewrite <- Zlt_Qlt in A, B. lia.
Qed.

(** The model against the processor, on a few draws. *)
Example round_agrees_with_hardware :
  forallb (fun dr => agrees_with_hardware (fst dr) (snd dr))
    [(37, 241712); (89, 999999); (0, 1); (0, 0); (76, 972197);
     (179, 7812); (179, 999999); (1, 500000); (64, 333333);
     (127, 1); (128, 999983); (45, 123457); (2, 7); (90, 654321)]%Z
  = true.
Proof. vm_compute. reflexivity. Qed.

End Binary64Facts.

(* ================================================================== *)
(** * The range of a generated fix *)

(** The minutes stay below 59.99995: six decimals never show 60. *)
Lemma random_coordinate_tight (MAX rdeg rfrac : N) :
  (0 < MAX)%N -> (MAX <= 180)%N ->
  Binary64.to_int (random_coordinate MAX rdeg rfrac) = Z.of_N (rdeg mod MAX)
  /\ (0 <= minutes_of (random_coordinate MAX rdeg rfrac)
             (Binary64.to_int (random_coordinate MAX rdeg rfrac)))%Q
  /\ (minutes_of (random_coordinate MAX rdeg rfrac)
        (Binary64.to_int (random_coordinate MAX rdeg rfrac))
      <= 5999995 # 100000)%Q.
Proof.
  intros Hpos Hmax.
  pose proof (N.mod_upper_bound rdeg MAX ltac:(lia)) as Hd.
  pose proof (N.mod_upper_bound rfrac PRECISION_FACTOR ltac:(discriminate)) as Hr.
  unfold PRECISION_FACTOR in Hr.
  unfold random_coordinate, Binary64.add, Binary64.div, double_of_N,
    PRECISION_FACTOR.
  set (dn := (rdeg mod MAX)%N) in *. set (rn := (rfrac mod 1000000)%N) in *.
  clearbody dn rn.
  set (d := Z.of_N dn). set (r := Z.of_N rn).
  assert (Hdz : (0 <= d <= 179)%Z) by (unfold d; lia).
  assert (Hrz : (0 <= r <= 999999)%Z) by (unfold r; lia).
  assert (Hd0 : (0 <= inject_Z d)%Q)
    by (change 0%Q with (inject_Z 0); rewrite <- Zle_Qle; lia).
  assert (Hd1 : (inject_Z d <= 179)%Q)
    by (change 179%Q with (inject_Z 179); rewrite <- Zle_Qle; lia).
  assert (Hr0 : (0 <= inject_Z r)%Q)
    by (change 0%Q with (inject_Z 0); rewrite <- Zle_Qle; lia).
  assert (Hr1 : (inject_Z r <= 999999)%Q)
    by (change 999999%Q with (inject_Z 999999); rewrite <- Zle_Qle; lia).
  change (inject_Z (Z.of_N 1000000)) with 1000000%Q.
  set (q := (inject_Z r / 1000000)%Q).
  assert (Hq : (0 <= q /\ q <= 999999 # 1000000)%Q).
  { assert (E : (q * 1000000 == inject_Z r)%Q) by (unfold q; field).
    split; lra. }
  pose proof (Binary64Facts.round_bounds q ltac:(lra) ltac:(lra)) as [F1 F2].
  pose proof (Binary64Facts.round_ge_Z 0 q ltac:(lra) ltac:(lra)
                ltac:(change (inject_Z 0) with 0%Q; lra)) as F0.
  change (inject_Z 0) with 0%Q in F0.
  unfold Binary64.half_ulp_8 in *.
  set (f := Binary64.round q) in *.
  pose proof (Binary64Facts.round_bounds (inject_Z d + f)
                ltac:(lra) ltac:(lra)) as [V1 V2].
  pose proof (Binary64Facts.round_ge_Z d (inject_Z d + f)
                ltac:(lra) ltac:(lra) ltac:(lra)) as V0.
  unfold Binary64.half_ulp_8 in *.
  set (v := Binary64.round (inject_Z d + f)) in *.
  assert (Hint : Binary64.to_int v = d).
  { apply Binary64Facts.to_int_floor; [lra | lra | lia]. }
  rewrite Hint. split; [reflexivity|].
  unfold minutes_of, Binary64.mul, Binary64.sub, double_of_int, double_of_N,
    MINUTES_IN_DEGREE.
  change (inject_Z (Z.of_N 60)) with 60%Q.
  pose proof (Binary64Facts.round_bounds (v - inject_Z d)
                ltac:(lra) ltac:(lra)) as [T1 T2].
  pose proof (Binary64Facts.round_ge_Z 0 (v - inject_Z d) ltac:(lra) ltac:(lra)
                ltac:(change (inject_Z 0) with 0%Q; lra)) as T0.
  change (inject_Z 0) with 0%Q in T0.
  unfold Binary64.half_ulp_8 in *.
  set (t := Binary64.round (v - inject_Z d)) in *.
  pose proof (Binary64Facts.round_bounds (t * 60)
                ltac:(lra) ltac:(lra)) as [M1 M2].
  pose proof (Binary64Facts.round_ge_Z 0 (t * 60) ltac:(lra) ltac:(lra)
                ltac:(change (inject_Z 0) with 0%Q; lra)) as M0.
  change (inject_Z 0) with 0%Q in M0.
  unfold Binary64.half_ulp_8 in *.
  split; lra.
Qed.

Lemma random_coordinate_bounds (MAX rdeg rfrac : N) :
  (0 < MAX)%N -> (MAX <= 180)%N ->
  Binary64.to_int (random_coordinate MAX rdeg rfrac) = Z.of_N (rdeg mod MAX)
  /\ (0 <= minutes_of (random_coordinate MAX rdeg rfrac)
             (Binary64.to_int (random_coordinate MAX rdeg rfrac)))%Q
  /\ (minutes_of (random_coordinate MAX rdeg rfrac)
        (Binary64.to_int (random_coordinate MAX rdeg rfrac)) < 60)%Q.
Proof.
  intros Hpos Hmax.
  destruct (random_coordinate_tight MAX rdeg rfrac Hpos Hmax) as (A & B & C).
  repeat split; try assumption. lra.
Qed.

(** C7.  Whatever [rand()] returns, the fix that [generateGNSSData]
    draws has its latitude degrees in [0,90), its longitude degrees in
    [0,180), and both values of minutes in [0,60). *)
Theorem generated_fix_in_range (w : World) :
  (0 <= latDegrees (fix_of w) < 90)%Z
  /\ (0 <= longDegrees (fix_of w) < 180)%Z
  /\ (0 <= latMinutes (fix_of w) /\ latMinutes (fix_of w) < 60)%Q
  /\ (0 <= longMinutes (fix_of w) /\ longMinutes (fix_of w) < 60)%Q.
Proof.
  unfold fix_of, drawFix, bind, ret, gmtime_now, rand.
  cbn [fst snd clock rand_seq rand_pos latDegrees latMinutes
       longDegrees longMinutes].
  set (r1 := rand_seq w (rand_pos w)).
  set (r2 := rand_seq w (S (rand_pos w))).
  set (r3 := rand_seq w (S (S (rand_pos w)))).
  set (r4 := rand_seq w (S (S (S (rand_pos w))))).
  destruct (random_coordinate_bounds LATITUDE_DEGREE_MAX r1 r2)
    as (A1 & A2 & A3); [reflexivity | discriminate |].
  destruct (random_coordinate_bounds LONGITUDE_DEGREE_MAX r3 r4)
    as (B1 & B2 & B3); [reflexivity | discriminate |].
  rewrite A1, B1 in *.
  pose proof (N.mod_upper_bound r1 LATITUDE_DEGREE_MAX ltac:(discriminate)).
  pose proof (N.mod_upper_bound r3 LONGITUDE_DEGREE_MAX ltac:(discriminate)).
  unfold LATITUDE_DEGREE_MAX, LONGITUDE_DEGREE_MAX in *.
  repeat split; try assumption; try apply N2Z.is_nonneg.
  - change 90%Z with (Z.of_N 90). now apply N2Z.inj_lt.
  - change 180%Z with (Z.of_N 180). now apply N2Z.inj_lt.
Qed.

(* ================================================================== *)
(** * Verification of the checksum *)

Module ChecksumFacts.
Import ChecksumEngine.

Lemma ofHex_toHex (b : N) : (b < 256)%N -> ofHex (toHex b) = b.
Proof.
  intros Hb.
  assert (T : forallb (fun k => N.eqb (ofHex (toHex (N.of_nat k))) (N.of_nat k))
                (seq 0 256) = true) by (vm_compute; reflexivity).
  rewrite forallb_forall in T.
  specialize (T (N.to_nat b)). rewrite N2Nat.id in T.
  apply N.eqb_eq, T, in_seq. lia.
Qed.

Lemma to_upper_toHex (b : N) :
  (b < 256)%N -> Str.map to_upper (toHex b) = toHex b.
Proof.
  intros Hb.
  assert (T : forallb (fun k => String.eqb
                                  (Str.map to_upper (toHex (N.of_nat k)))
                                  (toHex (N.of_nat k)))
                (seq 0 256) = true) by (vm_compute; reflexivity).
  rewrite forallb_forall in T.
  specialize (T (N.to_nat b)). rewrite N2Nat.id in T.
  apply String.eqb_eq, T, in_seq. lia.
Qed.

Lemma fold_lxor (l : list N) (acc : N) :
  fold_left N.lxor l acc = N.lxor acc (fold_left N.lxor l 0%N).
Proof.
  revert acc. induction l as [|x l IH]; intros acc; simpl.
  - now rewrite N.lxor_0_r.
  - rewrite (IH (N.lxor acc x)), (IH x). now rewrite N.lxor_assoc.
Qed.

Lemma compute_cons (c : ascii) (s : string) :
  compute (String c s) = N.lxor (N_of_ascii c) (compute s).
Proof. unfold compute. simpl. now rewrite fold_lxor. Qed.

Lemma pow2_byte (k : N) : (k < 8)%N -> (2 ^ k < 256)%N.
Proof.
  intros Hk. change 256%N with (2 ^ 8)%N.
  apply N.pow_lt_mono_r; [reflexivity | exact Hk].
Qed.

Lemma N_of_flip_bit (k : N) (c : ascii) :
  (k < 8)%N -> N_of_ascii (flip_bit k c) = N.lxor (N_of_ascii c) (2 ^ k).
Proof.
  intros Hk. unfold flip_bit. apply N_ascii_embedding.
  apply lxor_byte; [apply N_ascii_bounded | now apply pow2_byte].
Qed.

(** Inverting one bit of one byte inverts that bit of the checksum. *)
Lemma compute_mutate (i : nat) (k : N) (body : string) :
  (i < String.length body)%nat -> (k < 8)%N ->
  compute (mutate i k body) = N.lxor (compute body) (2 ^ k).
Proof.
  intros Hi Hk. revert i Hi.
  induction body as [|c r IH]; intros i Hi; simpl in Hi; [lia|].
  destruct i as [|j]; simpl; rewrite !compute_cons.
  - rewrite (N_of_flip_bit k c Hk).
    rewrite !N.lxor_assoc. f_equal. apply N.lxor_comm.
  - rewrite (IH j) by lia. now rewrite N.lxor_assoc.
Qed.

Lemma lxor_pow2_neq (x k : N) : N.lxor x (2 ^ k) <> x.
Proof.
  intros H.
  assert (E : (2 ^ k)%N = N.lxor x (N.lxor x (2 ^ k)))
    by now rewrite <- N.lxor_assoc, N.lxor_nilpotent, N.lxor_0_l.
  rewrite H, N.lxor_nilpotent in E.
  now apply (N.pow_nonzero 2 k).
Qed.

Lemma length_map (f : ascii -> ascii) (s : string) :
  String.length (Str.map f s) = String.length s.
Proof. induction s as [|c s IH]; simpl; [reflexivity | now rewrite IH]. Qed.

(** Where the first [c] of [a ++ c :: b] is: at the [c] shown, or
    earlier, and then more than [b] follows it. *)
Lemma split_first_app_cases (c : ascii) (a b : string) :
  exists pre post,
    Str.split_first c (a ++ String c b) = Some (pre, post)
    /\ ((pre = a /\ post = b)
        \/ (String.length b < String.length post)%nat).
Proof.
  induction a as [|x a (pre & post & E & IH)]; simpl.
  - exists EmptyString, b. rewrite Ascii.eqb_refl. auto.
  - destruct (Ascii.eqb x c) eqn:Hx.
    + exists EmptyString, (a ++ String c b). split; [reflexivity|].
      right. rewrite StrFacts.length_app. simpl. lia.
    + rewrite E. exists (String x pre), post. split; [reflexivity|].
      destruct IH as [[-> ->]|IH]; auto.
Qed.

Lemma verify_iff (sentence : string) :
  verify sentence = true <->
  exists body suffix,
    sentence = "$" ++ body ++ "*" ++ suffix
    /\ Str.all (Str.neqb "*") body = true
    /\ Str.map to_upper suffix = toHex (compute body).
Proof.
  split.
  - unfold verify. destruct (body_and_suffix sentence) as [[body suffix]|] eqn:E;
      [|discriminate].
    intros H. apply String.eqb_eq in H. exists body, suffix.
    unfold body_and_suffix in E.
    destruct sentence as [|c rest]; [discriminate|].
    destruct (ascii_dec c "$") as [->|Hc].
    + apply StrFacts.split_first_Some in E as [-> Hb]. auto.
    + destruct c as [[] [] [] [] [] [] [] []]; try discriminate.
      congruence.
  - intros (body & suffix & -> & Hb & E). unfold verify.
    rewrite body_and_suffix_app by exact Hb.
    now apply String.eqb_eq.
Qed.

Lemma verify_no_star (sentence : string) :
  Str.all (Str.neqb "*") sentence = true -> verify sentence = false.
Proof.
  intros H. unfold verify, body_and_suffix.
  destruct sentence as [|c rest]; [reflexivity|].
  simpl in H. apply andb_true_iff in H as [_ H].
  rewrite (StrFacts.split_first_None _ _ H).
  now destruct c as [[] [] [] [] [] [] [] []].
Qed.

Lemma verify_mutated (body suffix : string) (i : nat) (k : N) :
  Str.all (Str.neqb "*") body = true ->
  verify ("$" ++ body ++ "*" ++ suffix) = true ->
  (i < String.length body)%nat -> (k < 8)%N ->
  verify ("$" ++ mutate i k body ++ "*" ++ suffix) = false.
Proof.
  intros Hb Hv Hi Hk.
  unfold verify in Hv. rewrite body_and_suffix_app in Hv by exact Hb.
  apply String.eqb_eq in Hv.
  unfold verify. cbn [append body_and_suffix].
  destruct (split_first_app_cases "*" (mutate i k body) suffix)
    as (pre & post & E & C).
  rewrite E. apply String.eqb_neq. intros H.
  destruct C as [[-> ->]|Hlen].
  - rewrite Hv in H.
    apply (f_equal ofHex) in H.
    rewrite !ofHex_toHex in H by apply compute_byte.
    rewrite compute_mutate in H by assumption.
    now apply (lxor_pow2_neq (compute body) k).
  - apply (f_equal String.length) in H, Hv.
    rewrite length_map in H, Hv. simpl in H, Hv. lia.
Qed.

End ChecksumFacts.

(** C5.  [verify] is true exactly when the sentence is [$], a body
    without [*], [*], and a suffix that equals [toHex (compute body)]
    up to the case of its letters; it is false on a sentence without
    [*]; and when a sentence verifies, the inversion of any one bit of
    any one byte of its body gives a sentence that does not, the
    checksum of the changed body being another byte. *)
Theorem verify_detects_bit_flip (sentence : string) :
  (ChecksumEngine.verify sentence = true <->
     exists body suffix,
       sentence = "$" ++ body ++ "*" ++ suffix
       /\ Str.all (Str.neqb "*") body = true
       /\ Str.map ChecksumEngine.to_upper suffix
          = ChecksumEngine.toHex (ChecksumEngine.compute body))
  /\ (Str.all (Str.neqb "*") sentence = true ->
      ChecksumEngine.verify sentence = false)
  /\ (forall (body suffix : string) (i : nat) (k : N),
        sentence = "$" ++ body ++ "*" ++ suffix ->
        Str.all (Str.neqb "*") body = true ->
        ChecksumEngine.verify sentence = true ->
        (i < String.length body)%nat -> (k < 8)%N ->
        ChecksumEngine.verify
          ("$" ++ ChecksumEngine.mutate i k body ++ "*" ++ suffix) = false
        /\ ChecksumEngine.compute (ChecksumEngine.mutate i k body)
           <> ChecksumEngine.compute body).
Proof.
  split; [apply ChecksumFacts.verify_iff|].
  split; [apply ChecksumFacts.verify_no_star|].
  intros body suffix i k -> Hb Hv Hi Hk. split.
  - now apply ChecksumFacts.verify_mutated.
  - rewrite ChecksumFacts.compute_mutate by assumption.
    apply ChecksumFacts.lxor_pow2_neq.
Qed.

(** The sample sentence with the point of its time field turned into
    a [*] by the inversion of bit 2. *)
Lemma verify_detects_bit_flip_witness :
  ChecksumEngine.verify
    ("$" ++ ChecksumEngine.mutate 12 2
              "GPRMC,104512.00,A,3714.502720,N,7658.331820,W,0.0,0.0,011024,0.0,E,A"
         ++ "*" ++ "16") = false
  /\ ChecksumEngine.compute
       (ChecksumEngine.mutate 12 2
          "GPRMC,104512.00,A,3714.502720,N,7658.331820,W,0.0,0.0,011024,0.0,E,A")
     <> ChecksumEngine.compute
          "GPRMC,104512.00,A,3714.502720,N,7658.331820,W,0.0,0.0,011024,0.0,E,A".
Proof.
  apply (proj2 (proj2 (verify_detects_bit_flip
    "$GPRMC,104512.00,A,3714.502720,N,7658.331820,W,0.0,0.0,011024,0.0,E,A*16")));
    [reflexivity | reflexivity | reflexivity | simpl; lia | reflexivity].
Defined.

(** X1.  Every sentence of the sender verifies: the property above
    speaks of all of them. *)
Lemma generated_sentence_verifies (w : World) :
  ChecksumEngine.verify (fst (generateGNSSData w)) = true.
Proof.
  destruct (generated_sentence_split w) as (body & E & Hstar).
  rewrite E. apply ChecksumFacts.verify_iff.
  exists body, (ChecksumEngine.toHex (ChecksumEngine.compute body)).
  split; [reflexivity|]. split; [exact Hstar|].
  apply ChecksumFacts.to_upper_toHex, compute_byte.
Qed.

(* ================================================================== *)
(** * The loop of the receiver *)

Module ReceiverFacts.
Import Receiver.
#[local] Open Scope list_scope.
#[local] Open Scope nat_scope.

(** *** Lists and traces *)

Lemma sublist_nil_l {A} (l : list A) : sublist [] l.
Proof. induction l; constructor; assumption. Qed.

Lemma sublist_refl {A} (l : list A) : sublist l l.
Proof. induction l; constructor; assumption. Qed.

Lemma sublist_app {A} (a b c d : list A) :
  sublist a b -> sublist c d -> sublist (a ++ c) (b ++ d).
Proof. intros Hab Hcd. induction Hab; simpl; try constructor; assumption. Qed.

Lemma sublist_trans {A} (l1 l2 l3 : list A) :
  sublist l1 l2 -> sublist l2 l3 -> sublist l1 l3.
Proof.
  intros H12 H23. revert l1 H12.
  induction H23 as [|x l2 l3 H IH|x l2 l3 H IH]; intros l1 H12.
  - exact H12.
  - apply sublist_skip, IH, H12.
  - inversion H12; subst.
    + now apply sublist_skip, IH.
    + now apply sublist_keep, IH.
Qed.

Lemma sublist_app_l {A} (a c b : list A) :
  sublist (a ++ c) b -> sublist a b.
Proof.
  apply sublist_trans.
  rewrite <- (app_nil_r a) at 1.
  apply sublist_app; [apply sublist_refl | apply sublist_nil_l].
Qed.

Lemma sublist_In {A} (l1 l2 : list A) (x : A) :
  sublist l1 l2 -> In x l1 -> In x l2.
Proof.
  induction 1 as [|y l1 l2 H IH|y l1 l2 H IH]; simpl; intuition.
Qed.

Lemma delivered_app a b : delivered (a ++ b) = delivered a ++ delivered b.
Proof. apply flat_map_app. Qed.
Lemma logged_app a b : logged (a ++ b) = logged a ++ logged b.
Proof. apply flat_map_app. Qed.
Lemma validated_app a b : validated (a ++ b) = validated a ++ validated b.
Proof. apply flat_map_app. Qed.
Lemma executed_app a b : executed (a ++ b) = executed a ++ executed b.
Proof. apply flat_map_app. Qed.
Lemma polls_app a b : polls (a ++ b) = polls a + polls b.
Proof. unfold polls. now rewrite filter_app, length_app. Qed.

Lemma delivered_map ds : delivered (List.map Delivered ds) = ds.
Proof. induction ds; simpl; congruence. Qed.
Lemma logged_map ds : logged (List.map Delivered ds) = [].
Proof. induction ds; simpl; congruence. Qed.
Lemma validated_map ds : validated (List.map Delivered ds) = [].
Proof. induction ds; simpl; congruence. Qed.
Lemma executed_map ds : executed (List.map Delivered ds) = [].
Proof. induction ds; simpl; congruence. Qed.
Lemma polls_map ds : polls (List.map Delivered ds) = 0.
Proof. unfold polls. induction ds; simpl; auto. Qed.

Lemma stored_of_app a b : stored_of (a ++ b) = stored_of a ++ stored_of b.
Proof. unfold stored_of. now rewrite filter_app, map_app. Qed.

Lemma last_cons {A} (d : A) (ds : list A) (x : A) :
  last (d :: ds) x = last ds d.
Proof.
  revert d x. induction ds as [|y ds IH]; intros d x; [reflexivity|].
  change (last (d :: y :: ds) x) with (last (y :: ds) x).
  now rewrite (IH y x), (IH y d).
Qed.

(** [mosquitto_loop] leaves the last payload in the buffer. *)
Lemma fold_on_message (ds : list string) (s : State) :
  fold_left on_message ds s
  = mk_State (pc s) (running s) (last ds (receivedMessage s)) (isValid s).
Proof.
  revert s. induction ds as [|d ds IH]; intros s; simpl fold_left.
  - now destruct s.
  - rewrite IH, last_cons. reflexivity.
Qed.

Lemma last_pending (ds : list string) :
  sublist (if String.eqb (last ds "") "" then [] else [last ds ""])
          (List.filter nonempty ds).
Proof.
  induction ds as [|x ds IH]; [constructor|].
  destruct ds as [|y ds].
  - cbn [last filter]. unfold nonempty.
    destruct (String.eqb x ""); cbn [negb]; apply sublist_refl.
  - change (last (x :: y :: ds) "") with (last (y :: ds) "").
    simpl filter at 1. destruct (nonempty x); [apply sublist_skip|]; exact IH.
Qed.

Lemma run_app (l1 l2 : list Input) (s : State) :
  run (l1 ++ l2) s
  = (fst (run l2 (fst (run l1 s))),
     snd (run l1 s) ++ snd (run l2 (fst (run l1 s)))).
Proof.
  revert s. induction l1 as [|i l1 IH]; intros s; simpl.
  - now destruct (run l2 s).
  - destruct (step i s) as [s1 ev1]. rewrite IH.
    destruct (run l1 s1) as [s2 ev2]. simpl.
    now rewrite app_assoc.
Qed.

Lemma run_cons (i : Input) (l : list Input) (s : State) :
  run (i :: l) s
  = (fst (run l (fst (step i s))),
     snd (step i s) ++ snd (run l (fst (step i s)))).
Proof.
  cbn [run]. destruct (step i s) as [s1 ev1]. cbn [fst snd].
  now destruct (run l s1).
Qed.

End ReceiverFacts.

Module LoopFacts.
Import Receiver ReceiverFacts.
#[local] Open Scope list_scope.
#[local] Open Scope nat_scope.

Ltac trace_norm :=
  rewrite ?delivered_app, ?logged_app, ?validated_app, ?executed_app,
    ?polls_app, ?delivered_map, ?logged_map, ?validated_map,
    ?executed_map, ?polls_map;
  cbn [delivered logged validated executed polls flat_map filter
       List.length List.app to_log to_validate to_execute pc running
       receivedMessage isValid between_iterations];
  rewrite ?app_nil_r.

Ltac split4 := split; [|split; [|split]].

(** *** After the flag is cleared *)

Lemma stopped_step (i : Input) (s : State) :
  running s = false ->
  running (fst (step i s)) = false
  /\ polls (snd (step i s)) + polls_left (pc (fst (step i s)))
     <= polls_left (pc s)
  /\ List.length (logged (snd (step i s))) + logs_left (pc (fst (step i s)))
     <= logs_left (pc s)
  /\ List.length (validated (snd (step i s)))
       + validations_left (pc (fst (step i s)))
     <= validations_left (pc s)
  /\ List.length (executed (snd (step i s)))
       + execs_left (pc (fst (step i s)))
     <= execs_left (pc s)
  /\ steps_left (pc (fst (step i s))) <= steps_left (pc s) - run_count i.
Proof.
  intros Hr. destruct s as [l r m v]. simpl in Hr. subst r.
  destruct i as [|ds rc].
  - simpl. repeat split; lia.
  - destruct l; cbn [step pc running receivedMessage isValid goto fst snd].
    + simpl. repeat split; lia.
    + rewrite fold_on_message.
      change (CallLoop :: List.map Delivered ds)
        with ([CallLoop] ++ List.map Delivered ds).
      trace_norm. simpl. repeat split; lia.
    + destruct (String.eqb m ""); simpl; repeat split; lia.
    + simpl. repeat split; lia.
    + simpl. repeat split; lia.
    + destruct v; simpl; repeat split; lia.
    + simpl. repeat split; lia.
    + simpl. repeat split; lia.
Qed.

Lemma stopped_run (inputs : list Input) (s : State) :
  running s = false ->
  running (fst (run inputs s)) = false
  /\ polls (snd (run inputs s)) <= polls_left (pc s)
  /\ List.length (logged (snd (run inputs s))) <= logs_left (pc s)
  /\ List.length (validated (snd (run inputs s))) <= validations_left (pc s)
  /\ List.length (executed (snd (run inputs s))) <= execs_left (pc s)
  /\ (steps_left (pc s) <= steps inputs -> pc (fst (run inputs s)) = L_exit).
Proof.
  revert s. induction inputs as [|i rest IH]; intros s Hr.
  - cbn [run fst snd].
    split; [assumption|]. do 4 (split; [apply Nat.le_0_l|]).
    unfold steps. simpl. destruct (pc s); simpl; intros H;
      solve [reflexivity | lia].
  - rewrite run_cons. cbn [fst snd].
    destruct (stopped_step i s Hr) as (S1 & S2 & S3 & S4 & S5 & S6).
    destruct (IH (fst (step i s)) S1) as (R1 & R2 & R3 & R4 & R5 & R6).
    rewrite polls_app, logged_app, validated_app, executed_app, !length_app.
    split; [assumption|]. do 4 (split; [lia|]).
    intros H. apply R6.
    assert (steps (i :: rest) = run_count i + steps rest)
      by (unfold steps; destruct i; reflexivity).
    lia.
Qed.

Lemma run_signal_last (before : list Input) (s : State) :
  running (fst (run (before ++ [Signal]) s)) = false.
Proof. rewrite run_app. reflexivity. Qed.

(** Without a signal [running] stays true and the loop is not left. *)
Lemma runs_without_signal (inputs : list Input) (s : State) :
  running s = true -> pc s <> L_exit -> ~ In Signal inputs ->
  running (fst (run inputs s)) = true /\ pc (fst (run inputs s)) <> L_exit.
Proof.
  revert s. induction inputs as [|i rest IH]; intros s Hr Hpc Hin.
  - now split.
  - rewrite run_cons. cbn [fst snd].
    assert (Hrest : ~ In Signal rest) by (intros H; apply Hin; now right).
    destruct i as [|ds rc]; [exfalso; apply Hin; now left|].
    destruct s as [l r m v]. cbn [running pc] in Hr, Hpc. subst r.
    destruct l; cbn [step pc running receivedMessage isValid goto fst snd];
      try (apply IH; [reflexivity | discriminate | exact Hrest]).
    + rewrite fold_on_message.
      apply IH; [reflexivity | discriminate | exact Hrest].
    + destruct (String.eqb m "");
        (apply IH; [reflexivity | discriminate | exact Hrest]).
    + congruence.
Qed.

(** *** The invariant of the loop *)

Lemma Inv_init : Inv init [].
Proof. repeat split; simpl; auto. constructor. Qed.

Lemma step_Inv (i : Input) (s : State) (tr : list Event) :
  Inv s tr -> Inv (fst (step i s)) (tr ++ snd (step i s)).
Proof.
  unfold Inv. intros (H1 & H2 & H3 & H4).
  destruct s as [l r m v]. destruct i as [|ds rc].
  - cbn [step fst snd handle_signal] in *. trace_norm. auto.
  - destruct l; cbn [step pc running receivedMessage isValid goto fst snd] in *;
      revert H1 H2 H3 H4; trace_norm; intros H1 H2 H3 H4.
    + destruct r; trace_norm; auto.
    + rewrite fold_on_message.
      change (CallLoop :: List.map Delivered ds)
        with ([CallLoop] ++ List.map Delivered ds).
      trace_norm. rewrite (H4 eq_refl), filter_app.
      split4; auto; [|discriminate].
      apply sublist_app; [exact H1 | apply last_pending].
    + destruct (String.eqb m "") eqn:E; cbn iota in H1;
        rewrite ?app_nil_r in H1; trace_norm; rewrite ?E;
        split4; auto; try discriminate.
      intros _. now apply String.eqb_eq.
    + split4; auto; try discriminate.
      now rewrite H2.
    + rewrite stored_of_app, H3. split4; auto; try discriminate.
      unfold stored_of. simpl.
      destruct (validateNMEAFormat m); reflexivity.
    + destruct v; cbn iota in H3; rewrite ?app_nil_r in H3;
        trace_norm; split4; auto; discriminate.
    + split4; auto.
    + split4; auto.
Qed.

Lemma run_Inv (inputs : list Input) :
  Inv (fst (run inputs init)) (snd (run inputs init)).
Proof.
  induction inputs as [|i inputs IH] using rev_ind.
  - apply Inv_init.
  - rewrite run_app. cbn [fst snd].
    rewrite (run_cons i []). cbn [fst snd run]. rewrite app_nil_r.
    now apply step_Inv.
Qed.

End LoopFacts.

(* ================================================================== *)
(** * Shutdown, iterations and deliveries *)

Import Receiver.

(** C8.  Once a signal has set [running] to false, whatever the
    transport delivers and however further signals fall, [main] enters
    [mosquitto_loop] at most once more and logs, validates and stores
    at most one more message; after seven more of its statements at
    the latest it has left the loop; and once it has left the loop
    nothing is polled, logged, validated or stored any more.  Without
    a signal the loop is never left. *)
Theorem shutdown_within_one_cycle (before after : list Input) :
  let s1 := fst (run (before ++ [Signal]) init) in
  let s2 := fst (run after s1) in
  let tr := snd (run after s1) in
  (polls tr <= 1)%nat
  /\ (List.length (logged tr) <= 1)%nat
  /\ (List.length (validated tr) <= 1)%nat
  /\ (List.length (executed tr) <= 1)%nat
  /\ ((7 <= steps after)%nat -> pc s2 = L_exit)
  /\ (pc s2 = L_exit ->
      forall more : list Input,
        pc (fst (run more s2)) = L_exit
        /\ polls (snd (run more s2)) = 0%nat
        /\ logged (snd (run more s2)) = []
        /\ validated (snd (run more s2)) = []
        /\ executed (snd (run more s2)) = [])
  /\ (forall inputs : list Input,
        ~ In Signal inputs -> pc (fst (run inputs init)) <> L_exit).
Proof.
  cbv zeta.
  assert (N : forall inputs : list Input,
            ~ In Signal inputs -> pc (fst (run inputs init)) <> L_exit).
  { intros inputs Hin.
    now apply (LoopFacts.runs_without_signal inputs init). }
  pose proof (LoopFacts.run_signal_last before init) as Hr.
  set (s1 := fst (run (before ++ [Signal]) init)) in *.
  destruct (LoopFacts.stopped_run after s1 Hr) as (R1 & R2 & R3 & R4 & R5 & R6).
  assert (B : (polls_left (pc s1) <= 1 /\ logs_left (pc s1) <= 1
               /\ validations_left (pc s1) <= 1 /\ execs_left (pc s1) <= 1
               /\ steps_left (pc s1) <= 7)%nat)
    by (destruct (pc s1); simpl; lia).
  do 4 (split; [lia|]).
  split; [intros H; apply R6; lia|].
  split; [|exact N].
  intros Hexit more.
  destruct (LoopFacts.stopped_run more _ R1) as (_ & M2 & M3 & M4 & M5 & M6).
  rewrite Hexit in *. simpl in *.
  split; [apply M6; lia|].
  split; [lia|].
  repeat split; apply length_zero_iff_nil; lia.
Qed.

(** A signal that arrives between the test of [running] and the call
    of [mosquitto_loop]: one more message is polled and processed. *)
Lemma shutdown_within_one_cycle_witness :
  pc (fst (run [Run ["$GPRMC,late"] true; Run [] true; Run [] true;
                Run [] true; Run [] true; Run [] true; Run [] true]
             (fst (run ([Run [] true] ++ [Signal]) init)))) = L_exit.
Proof.
  apply (proj1 (proj2 (proj2 (proj2 (proj2
           (shutdown_within_one_cycle [Run [] true]
              [Run ["$GPRMC,late"] true; Run [] true; Run [] true;
               Run [] true; Run [] true; Run [] true; Run [] true])))))).
  vm_compute. lia.
Defined.

(** One iteration, from the call of [mosquitto_loop]: with [m] the
    buffer after the poll, nothing more happens when [m] is empty;
    otherwise [m] is logged, then validated, then handed to
    [sqlite3_exec] inside its INSERT statement exactly when the
    validation returned true, and the buffer is cleared.  Whatever the
    validation returned, [running] is as before and [main] is back at
    the test of the loop, which enters [mosquitto_loop] again while
    [running] is true. *)
Theorem process_buffered_message
    (s : State) (ds d1 d2 d3 d4 d5 d6 : list string)
    (c0 c1 c2 c3 c4 c5 c6 : bool) :
  pc s = L_loop ->
  let m := last ds (receivedMessage s) in
  (m = "" ->
     run [Run ds c0; Run d1 c1] s
     = (mk_State L_while (running s) "" (isValid s),
        (CallLoop :: List.map Delivered ds)%list))
  /\ (m <> "" ->
      run [Run ds c0; Run d1 c1; Run d2 c2; Run d3 c3; Run d4 c4; Run d5 c5] s
      = (mk_State L_while (running s) "" (validateNMEAFormat m),
         (CallLoop :: List.map Delivered ds
            ++ [Log m; Validate m (validateNMEAFormat m)]
            ++ (if validateNMEAFormat m
                then [Exec (c_str (insert_sql m)) c4] else []))%list))
  /\ (m <> "" -> running s = true ->
      pc (fst (run [Run ds c0; Run d1 c1; Run d2 c2; Run d3 c3; Run d4 c4;
                    Run d5 c5; Run d6 c6] s)) = L_loop).
Proof.
  intros Hpc m. destruct s as [l r b v]. simpl in Hpc. subst l.
  cbn [receivedMessage running isValid] in *.
  assert (E : forall rest,
             run (Run ds c0 :: rest) (mk_State L_loop r b v)
             = (fst (run rest (mk_State L_empty r m v)),
                ((CallLoop :: List.map Delivered ds)
                   ++ snd (run rest (mk_State L_empty r m v)))%list)).
  { intros rest. rewrite ReceiverFacts.run_cons.
    cbn [step pc fst snd]. now rewrite ReceiverFacts.fold_on_message. }
  split; [|split].
  - intros Hm. rewrite E. cbn. rewrite Hm. cbn. now rewrite app_nil_r.
  - intros Hm. rewrite E. apply String.eqb_neq in Hm.
    cbn. rewrite Hm. cbn.
    destruct (validateNMEAFormat m); reflexivity.
  - intros Hm Hr. subst r. rewrite E. apply String.eqb_neq in Hm.
    cbn. rewrite Hm. cbn.
    destruct (validateNMEAFormat m); reflexivity.
Qed.

(** A message without the prefix: logged, rejected, not stored, and
    the loop goes on. *)
Lemma process_buffered_message_witness :
  run [Run ["$GPGGA,1"] true; Run [] true; Run [] true; Run [] true;
       Run [] true; Run [] true] (mk_State L_loop true "" false)
  = (mk_State L_while true "" false,
     [CallLoop; Delivered "$GPGGA,1"; Log "$GPGGA,1";
      Validate "$GPGGA,1" false]).
Proof.
  apply (proj1 (proj2
    (process_buffered_message (mk_State L_loop true "" false)
       ["$GPGGA,1"] [] [] [] [] [] [] true true true true true true true
       eq_refl))).
  vm_compute. discriminate.
Defined.

(** C9.  The iteration does not insert every raw string that passes the
    validation.  The payload [$GPRMC'] is accepted, and the statement
    handed to [sqlite3_exec] for it has three quotes: the quote of the
    payload closes the literal, and no statement is left that would
    insert the payload.  The payload [$GPRMC,1], NUL, [,2] is accepted,
    and its statement ends before the NUL, without the closing quote. *)
Theorem valid_payload_not_inserted (rc : bool) :
  (validateNMEAFormat "$GPRMC'" = true
   /\ snd (run (one_per_poll rc ["$GPRMC'"]) init)
      = [CallLoop; Delivered "$GPRMC'"; Log "$GPRMC'";
         Validate "$GPRMC'" true;
         Exec "INSERT INTO GNSS_DATA (NMEA_DATA) VALUES ('$GPRMC'');" rc]
   /\ count_char "'" (store_command "$GPRMC'") = 3%nat)
  /\ (let m := "$GPRMC,1" ++ String Ascii.zero ",2" in
      validateNMEAFormat m = true
      /\ snd (run (one_per_poll rc [m]) init)
         = [CallLoop; Delivered m; Log m; Validate m true;
            Exec "INSERT INTO GNSS_DATA (NMEA_DATA) VALUES ('$GPRMC,1" rc]).
Proof. destruct rc; vm_compute; repeat split. Qed.

(** C10.  In every run of the receiver the messages logged are, in
    order, some of the non-empty payloads delivered, each delivery
    taken at most once; the messages validated are some of the logged
    ones, and the statements executed are some of those of the
    validated messages that passed.  The empty payload is never logged
    nor validated. *)
Theorem each_delivery_processed_at_most_once (inputs : list Input) :
  let tr := snd (run inputs init) in
  sublist (logged tr) (List.filter nonempty (delivered tr))
  /\ sublist (validated tr) (logged tr)
  /\ sublist (executed tr) (stored_of (validated tr))
  /\ ~ In "" (logged tr)
  /\ ~ In "" (validated tr).
Proof.
  cbv zeta. destruct (LoopFacts.run_Inv inputs) as (H1 & H2 & H3 & _).
  set (tr := snd (run inputs init)) in *.
  assert (A : sublist (logged tr) (List.filter nonempty (delivered tr)))
    by (eapply ReceiverFacts.sublist_app_l; exact H1).
  assert (B : sublist (validated tr) (logged tr)).
  { rewrite H2. rewrite <- (app_nil_r (validated tr)) at 1.
    apply ReceiverFacts.sublist_app;
      [apply ReceiverFacts.sublist_refl | apply ReceiverFacts.sublist_nil_l]. }
  assert (C : ~ In "" (logged tr)).
  { intros Hin. apply (ReceiverFacts.sublist_In _ _ _ A) in Hin.
    apply filter_In in Hin as [_ Hne]. discriminate. }
  split; [exact A|]. split; [exact B|]. split; [|split; [exact C|]].
  - rewrite H3. rewrite <- (app_nil_r (executed tr)) at 1.
    apply ReceiverFacts.sublist_app;
      [apply ReceiverFacts.sublist_refl | apply ReceiverFacts.sublist_nil_l].
  - intros Hin. apply C. eapply ReceiverFacts.sublist_In; eassumption.
Qed.

(* ================================================================== *)
(** * The width of a printed integer *)

Module WidthFacts.

Lemma length_string_of_uint (d : Decimal.uint) :
  String.length (NilEmpty.string_of_uint d) = Decimal.nb_digits d.
Proof. induction d; simpl; congruence. Qed.

Lemma usize_nb_digits (d : Decimal.uint) :
  DecimalPos.Unsigned.usize d = N.of_nat (Decimal.nb_digits d).
Proof.
  induction d; cbn [DecimalPos.Unsigned.usize Decimal.nb_digits];
    rewrite ?IHd; lia.
Qed.

Lemma of_lu_lt (d : Decimal.uint) :
  (DecimalPos.Unsigned.of_lu d < 10 ^ N.of_nat (Decimal.nb_digits d))%N.
Proof.
  induction d; cbn [DecimalPos.Unsigned.of_lu Decimal.nb_digits];
    rewrite ?Nat2N.inj_succ, ?N.pow_succ_r'; lia.
Qed.

(** The decimal digits of a positive number have no leading zero. *)
Lemma to_uint_head (p : positive) :
  Decimal.nzhead (Pos.to_uint p) = Pos.to_uint p.
Proof.
  pose proof (DecimalPos.Unsigned.to_of (Pos.to_uint p)) as H.
  rewrite DecimalPos.Unsigned.of_to in H. cbn [N.to_uint] in H.
  destruct (Decimal.uint_eq_dec (Decimal.nzhead (Pos.to_uint p)) Decimal.Nil)
    as [E|E].
  - exfalso. unfold Decimal.unorm in H. rewrite E in H.
    now apply (DecimalPos.Unsigned.to_uint_nonzero p).
  - now rewrite (DecimalFacts.unorm_nzhead _ E) in H.
Qed.

(** A positive number lies between the powers of ten that its number
    of digits gives. *)
Lemma digits_of_pos (p : positive) :
  (10 ^ N.of_nat (Decimal.nb_digits (Pos.to_uint p) - 1) <= N.pos p
   /\ N.pos p < 10 ^ N.of_nat (Decimal.nb_digits (Pos.to_uint p)))%N.
Proof.
  pose proof (DecimalPos.Unsigned.of_to p) as Hof.
  pose proof (to_uint_head p) as Hhd.
  split.
  - destruct (Pos.to_uint p) as [|d|d|d|d|d|d|d|d|d|d] eqn:E;
      try discriminate;
      try (exfalso; now apply (DecimalFacts.nzhead_nonzero _ _ Hhd));
      cbn [Pos.of_uint] in Hof;
      pose proof (DecimalPos.Unsigned.of_uint_acc_rev d) as R;
      rewrite usize_nb_digits in R;
      cbn [Decimal.nb_digits]; rewrite Nat.sub_succ, Nat.sub_0_r;
      rewrite <- Hof, R; nia.
  - rewrite <- Hof, DecimalPos.Unsigned.of_uint_alt.
    rewrite <- (DecimalFacts.nb_digits_rev (Pos.to_uint p)).
    apply of_lu_lt.
Qed.

(** The text of a positive [int] has as many characters as the number
    has digits. *)
Lemma length_to_string_pos (p : positive) :
  String.length (to_string_int (Z.pos p)) = Decimal.nb_digits (Pos.to_uint p).
Proof.
  unfold to_string_int. cbn [Z.to_int NilZero.string_of_int].
  unfold NilZero.string_of_uint.
  pose proof (DecimalPos.Unsigned.to_uint_nonnil p) as H.
  destruct (Pos.to_uint p) eqn:E; try congruence;
    rewrite <- E at 1; now rewrite length_string_of_uint, E.
Qed.

Lemma length_to_string_neg (p : positive) :
  String.length (to_string_int (Z.neg p))
  = S (Decimal.nb_digits (Pos.to_uint p)).
Proof.
  unfold to_string_int. cbn [Z.to_int NilZero.string_of_int String.length].
  f_equal. exact (length_to_string_pos p).
Qed.

(** [k] characters suffice below [10^k]. *)
Lemma length_to_string_le (k : nat) (z : Z) :
  (1 <= k)%nat -> 0 <= z < 10 ^ Z.of_nat k ->
  (1 <= String.length (to_string_int z) <= k)%nat.
Proof.
  intros Hk [H0 Hz]. destruct z as [|p|p]; [simpl; lia | | lia].
  rewrite length_to_string_pos.
  destruct (digits_of_pos p) as [Lo Hi].
  set (n := Decimal.nb_digits (Pos.to_uint p)) in *.
  assert (n <> 0)%nat.
  { intros E. rewrite E in Hi. simpl in Hi. lia. }
  split; [lia|].
  destruct (Nat.le_gt_cases n k) as [|Hgt]; [assumption|exfalso].
  assert (Hpow : (10 ^ N.of_nat k <= 10 ^ N.of_nat (n - 1))%N)
    by (apply N.pow_le_mono_r; lia).
  assert (Hzk : (N.pos p < 10 ^ N.of_nat k)%N).
  { apply N2Z.inj_lt. rewrite N2Z.inj_pow, nat_N_Z. exact Hz. }
  lia.
Qed.

(** From [10^k] on, more than [k] characters are printed. *)
Lemma length_to_string_gt (k : nat) (z : Z) :
  10 ^ Z.of_nat k <= z -> (k < String.length (to_string_int z))%nat.
Proof.
  intros Hz. assert (0 < 10 ^ Z.of_nat k) by (apply Z.pow_pos_nonneg; lia).
  destruct z as [|p|p]; try lia.
  rewrite length_to_string_pos.
  destruct (digits_of_pos p) as [Lo Hi].
  set (n := Decimal.nb_digits (Pos.to_uint p)) in *.
  destruct (Nat.le_gt_cases n k) as [Hle|]; [exfalso|assumption].
  assert (Hpow : (10 ^ N.of_nat n <= 10 ^ N.of_nat k)%N)
    by (apply N.pow_le_mono_r; lia).
  assert (Hzk : (10 ^ N.of_nat k <= N.pos p)%N).
  { apply N2Z.inj_le. rewrite N2Z.inj_pow, nat_N_Z. exact Hz. }
  lia.
Qed.

(** Different integers are printed differently. *)
Lemma to_string_int_inj (x y : Z) :
  to_string_int x = to_string_int y -> x = y.
Proof.
  unfold to_string_int. intros E.
  apply DecimalZ.to_int_inj.
  assert (N : forall z, Z.to_int z <> Decimal.Pos Decimal.Nil
                        /\ Z.to_int z <> Decimal.Neg Decimal.Nil).
  { intros [|p|p]; cbn [Z.to_int]; split; try discriminate;
      intros [= F]; now apply (DecimalPos.Unsigned.to_uint_nonnil p). }
  pose proof (NilZero.isi (Z.to_int x) (proj1 (N x)) (proj2 (N x))) as Hx.
  pose proof (NilZero.isi (Z.to_int y) (proj1 (N y)) (proj2 (N y))) as Hy.
  rewrite E in Hx. congruence.
Qed.

End WidthFacts.

(* ================================================================== *)
(** * More on [calculateChecksum] *)

Lemma calculateChecksum_length (sentence : string) :
  String.length (calculateChecksum sentence) = 2%nat.
Proof.
  destruct sentence as [|c rest]; [reflexivity|].
  unfold calculateChecksum.
  assert (Hb : (xor_loop 0 rest < 256)%N) by now apply (xor_loop_fold rest 0%N).
  rewrite put_hex_w2_toHex by exact Hb.
  now apply toHex_shape.
Qed.

(** X3.  Whatever its argument, bytes above 127 and NUL included,
    [calculateChecksum] returns exactly two uppercase hexadecimal
    digits; on the empty string and on a single character it returns
    [00], the first character never being read. *)
Theorem calculateChecksum_two_hex_digits (sentence : string) :
  String.length (calculateChecksum sentence) = 2%nat
  /\ Str.all is_upper_hex (calculateChecksum sentence) = true
  /\ ((String.length sentence <= 1)%nat -> calculateChecksum sentence = "00")
  /\ (forall c c' rest,
        sentence = String c rest ->
        calculateChecksum (String c' rest) = calculateChecksum sentence).
Proof.
  assert (S2 : forall b, (b < 256)%N ->
             String.length (put_hex_w2 b) = 2%nat
             /\ Str.all is_upper_hex (put_hex_w2 b) = true).
  { intros b Hb. rewrite put_hex_w2_toHex by exact Hb.
    now apply toHex_shape. }
  split; [|split; [|split]].
  - destruct sentence as [|c rest]; [reflexivity|].
    unfold calculateChecksum.
    apply S2. now apply (xor_loop_fold rest 0%N).
  - destruct sentence as [|c rest]; [reflexivity|].
    unfold calculateChecksum.
    apply S2. now apply (xor_loop_fold rest 0%N).
  - destruct sentence as [|c [|d rest]]; simpl; try reflexivity; lia.
  - intros c c' rest ->. reflexivity.
Qed.

Lemma calculateChecksum_two_hex_digits_witness :
  calculateChecksum "$" = "00".
Proof.
  apply (proj1 (proj2 (proj2 (calculateChecksum_two_hex_digits "$")))).
  simpl. lia.
Defined.

Lemma compute_Permutation (l1 l2 : list N) :
  Permutation.Permutation l1 l2 ->
  fold_left N.lxor l1 0%N = fold_left N.lxor l2 0%N.
Proof.
  induction 1 as [|x l1 l2 _ IH|x y l|l1 l2 l3 _ IH1 _ IH2]; simpl.
  - reflexivity.
  - rewrite (ChecksumFacts.fold_lxor l1), (ChecksumFacts.fold_lxor l2).
    now rewrite IH.
  - rewrite ?N.lxor_0_l. f_equal. apply N.lxor_comm.
  - congruence.
Qed.

(** X4.  The checksum does not see the order of the characters: two
    sentences whose characters after the first are the same up to
    their order get the same checksum. *)
Theorem calculateChecksum_order_blind (c1 c2 : ascii) (a b : string) :
  Permutation.Permutation (list_ascii_of_string a) (list_ascii_of_string b) ->
  calculateChecksum (String c1 a) = calculateChecksum (String c2 b).
Proof.
  intros P. rewrite !calculateChecksum_spec. f_equal.
  unfold ChecksumEngine.compute. apply compute_Permutation.
  now apply Permutation.Permutation_map.
Qed.

(** Latitude and longitude exchanged. *)
Lemma calculateChecksum_order_blind_witness :
  calculateChecksum "$12" = calculateChecksum "$21".
Proof.
  apply calculateChecksum_order_blind. simpl. apply Permutation.perm_swap.
Defined.

Lemma length_mutate (i : nat) (k : N) (body : string) :
  String.length (ChecksumEngine.mutate i k body) = String.length body.
Proof.
  revert i. induction body as [|c r IH]; intros i; [now destruct i|].
  destruct i; simpl; [reflexivity | now rewrite IH].
Qed.

Lemma flip_bit_neq (k : N) (c : ascii) :
  (k < 8)%N -> ChecksumEngine.flip_bit k c <> c.
Proof.
  intros Hk E. apply (f_equal N_of_ascii) in E.
  rewrite ChecksumFacts.N_of_flip_bit in E by exact Hk.
  now apply (ChecksumFacts.lxor_pow2_neq (N_of_ascii c) k).
Qed.

Lemma mutate_twice_neq (i j : nat) (k : N) (body : string) :
  i <> j -> (i < String.length body)%nat -> (j < String.length body)%nat ->
  (k < 8)%N ->
  ChecksumEngine.mutate i k (ChecksumEngine.mutate j k body) <> body.
Proof.
  intros Hij Hi Hj Hk. revert i j Hij Hi Hj.
  induction body as [|c r IH]; intros i j Hij Hi Hj; simpl in Hi, Hj; [lia|].
  destruct i as [|i], j as [|j]; simpl; try congruence.
  - intros [= E _]. now apply (flip_bit_neq k c).
  - intros [= E _]. now apply (flip_bit_neq k c).
  - intros [= E]. apply (IH i j); auto; lia.
Qed.

(** X5.  Two errors in the same bit of two different bytes cancel: the
    changed sentence is another text with the same checksum. *)
Theorem calculateChecksum_misses_paired_flips
    (c : ascii) (body : string) (i j : nat) (k : N) :
  i <> j -> (i < String.length body)%nat -> (j < String.length body)%nat ->
  (k < 8)%N ->
  ChecksumEngine.mutate i k (ChecksumEngine.mutate j k body) <> body
  /\ calculateChecksum
       (String c (ChecksumEngine.mutate i k (ChecksumEngine.mutate j k body)))
     = calculateChecksum (String c body).
Proof.
  intros Hij Hi Hj Hk. split; [now apply mutate_twice_neq|].
  rewrite !calculateChecksum_spec. f_equal.
  rewrite ChecksumFacts.compute_mutate
    by (rewrite ?length_mutate; assumption).
  rewrite ChecksumFacts.compute_mutate by assumption.
  now rewrite N.lxor_assoc, N.lxor_nilpotent, N.lxor_0_r.
Qed.

(** [37] read as [26]: bit 0 of both digits inverted. *)
Lemma calculateChecksum_misses_paired_flips_witness :
  ChecksumEngine.mutate 0 0 (ChecksumEngine.mutate 1 0 "37") <> "37"
  /\ calculateChecksum
       (String "$" (ChecksumEngine.mutate 0 0 (ChecksumEngine.mutate 1 0 "37")))
     = calculateChecksum (String "$" "37").
Proof.
  apply calculateChecksum_misses_paired_flips;
    [discriminate | simpl; lia | simpl; lia | reflexivity].
Defined.

(* ================================================================== *)
(** * [getFormattedTime] and [getFormattedDate] *)

Lemma length_replicate (n : nat) (c : ascii) :
  String.length (Str.replicate n c) = n.
Proof. induction n; simpl; congruence. Qed.

Lemma length_pad_left (w : nat) (c : ascii) (s : string) :
  String.length (Str.pad_left w c s) = Nat.max w (String.length s).
Proof.
  unfold Str.pad_left. rewrite StrFacts.length_app, length_replicate. lia.
Qed.

Lemma length_to_string_small (x : Z) :
  (String.length (to_string_int x) <= 2)%nat <-> -9 <= x <= 99.
Proof.
  destruct x as [|p|p].
  - simpl. split; lia.
  - split.
    + intros H. destruct (Z_lt_le_dec (Z.pos p) 100) as [|Hge]; [lia|].
      apply (WidthFacts.length_to_string_gt 2) in Hge. lia.
    + intros H. apply (WidthFacts.length_to_string_le 2); simpl; lia.
  - rewrite WidthFacts.length_to_string_neg,
      <- WidthFacts.length_to_string_pos.
    split.
    + intros H. destruct (Z_lt_le_dec (Z.pos p) 10) as [|Hge]; [lia|].
      apply (WidthFacts.length_to_string_gt 1) in Hge. lia.
    + intros H.
      pose proof (WidthFacts.length_to_string_le 1 (Z.pos p)) as L.
      simpl in L. lia.
Qed.

Lemma length_to_string_pos_ge (x : Z) :
  (1 <= String.length (to_string_int x))%nat.
Proof.
  destruct x as [|p|p].
  - simpl. lia.
  - rewrite WidthFacts.length_to_string_pos.
    destruct (WidthFacts.digits_of_pos p) as [_ Hi].
    destruct (Decimal.nb_digits (Pos.to_uint p)); [simpl in Hi|]; lia.
  - rewrite WidthFacts.length_to_string_neg. lia.
Qed.

Lemma length_put_int_w2 (x : Z) :
  (2 <= String.length (put_int_w2 x))%nat
  /\ (String.length (put_int_w2 x) = 2%nat <-> -9 <= x <= 99).
Proof.
  unfold put_int_w2. rewrite length_pad_left.
  pose proof (length_to_string_small x) as H.
  pose proof (length_to_string_pos_ge x).
  split; [lia|]. split; intros; lia.
Qed.

(** X6.  A field is never cut: [setw(2)] pads a single digit and
    leaves everything else as it is, so the time has its nine
    characters, and the date its six, exactly when each of the three
    numbers lies between -9 and 99; otherwise the text is longer. *)
Theorem formatted_fields_never_truncate (t : tm) :
  (9 <= String.length (getFormattedTime t))%nat
  /\ (String.length (getFormattedTime t) = 9%nat <->
      -9 <= tm_hour t <= 99 /\ -9 <= tm_min t <= 99 /\ -9 <= tm_sec t <= 99)
  /\ (6 <= String.length (getFormattedDate t))%nat
  /\ (String.length (getFormattedDate t) = 6%nat <->
      -9 <= tm_mday t <= 99 /\ -9 <= tm_mon t + 1 <= 99
      /\ -9 <= Z.rem (tm_year t) 100 <= 99).
Proof.
  unfold getFormattedTime, getFormattedDate.
  rewrite !StrFacts.length_app. simpl (String.length ".00").
  destruct (length_put_int_w2 (tm_hour t)) as [H1 H1'].
  destruct (length_put_int_w2 (tm_min t)) as [H2 H2'].
  destruct (length_put_int_w2 (tm_sec t)) as [H3 H3'].
  destruct (length_put_int_w2 (tm_mday t)) as [D1 D1'].
  destruct (length_put_int_w2 (tm_mon t + 1)) as [D2 D2'].
  destruct (length_put_int_w2 (Z.rem (tm_year t) 100)) as [D3 D3'].
  repeat split; try lia;
    try (apply H1'; lia); try (apply H2'; lia); try (apply H3'; lia);
    try (apply D1'; lia); try (apply D2'; lia); try (apply D3'; lia).
Qed.

Lemma put_int_w2_two_digits (x : Z) :
  0 <= x <= 99 ->
  put_int_w2 x
  = String (ascii_of_N (Z.to_N (48 + x / 10)))
      (String (ascii_of_N (Z.to_N (48 + x mod 10))) EmptyString).
Proof.
  intros Hx.
  assert (T : forallb
                (fun k => String.eqb (put_int_w2 (Z.of_nat k))
                   (String (ascii_of_N (Z.to_N (48 + Z.of_nat k / 10)))
                     (String (ascii_of_N (Z.to_N (48 + Z.of_nat k mod 10)))
                        EmptyString)))
                (seq 0 100) = true) by (vm_compute; reflexivity).
  rewrite forallb_forall in T.
  specialize (T (Z.to_nat x)). rewrite Z2Nat.id in T by lia.
  apply String.eqb_eq, T, in_seq. lia.
Qed.

Lemma put_int_w2_inj (x y : Z) :
  0 <= x <= 99 -> 0 <= y <= 99 -> put_int_w2 x = put_int_w2 y -> x = y.
Proof.
  intros Hx Hy E.
  rewrite (put_int_w2_two_digits x Hx), (put_int_w2_two_digits y Hy) in E.
  injection E as E1 E2.
  apply (f_equal N_of_ascii) in E1, E2.
  assert (B : forall z, 0 <= z <= 99 ->
            (Z.to_N (48 + z / 10) < 256)%N /\ (Z.to_N (48 + z mod 10) < 256)%N).
  { intros z Hz.
    pose proof (Z.div_pos z 10 ltac:(lia) ltac:(lia)).
    pose proof (Z.div_lt_upper_bound z 10 10 ltac:(lia) ltac:(lia)).
    pose proof (Z.mod_pos_bound z 10 ltac:(lia)).
    split; lia. }
  rewrite !N_ascii_embedding in E1, E2 by (apply B; assumption).
  pose proof (Z.div_pos x 10 ltac:(lia) ltac:(lia)).
  pose proof (Z.div_pos y 10 ltac:(lia) ltac:(lia)).
  pose proof (Z.mod_pos_bound x 10 ltac:(lia)).
  pose proof (Z.mod_pos_bound y 10 ltac:(lia)).
  assert (E1' : 48 + x / 10 = 48 + y / 10)
    by (apply Z2N.inj; [lia | lia | exact E1]).
  assert (E2' : 48 + x mod 10 = 48 + y mod 10)
    by (apply Z2N.inj; [lia | lia | exact E2]).
  clear E1 E2.
  pose proof (Z.div_mod x 10 ltac:(lia)).
  pose proof (Z.div_mod y 10 ltac:(lia)). lia.
Qed.

Lemma put_int_w2_digits (x : Z) :
  0 <= x <= 99 ->
  String.length (put_int_w2 x) = 2%nat
  /\ Str.all is_digit (put_int_w2 x) = true.
Proof.
  intros Hx. split; [apply length_put_int_w2; lia|].
  assert (T : forallb (fun k => Str.all is_digit (put_int_w2 (Z.of_nat k)))
                (seq 0 100) = true) by (vm_compute; reflexivity).
  rewrite forallb_forall in T.
  specialize (T (Z.to_nat x)). rewrite Z2Nat.id in T by lia.
  apply T, in_seq. lia.
Qed.

Lemma app_inj_length (a a' b b' : string) :
  String.length a = String.length a' -> a ++ b = a' ++ b' ->
  a = a' /\ b = b'.
Proof.
  revert a'. induction a as [|x a IH]; intros [|y a'] L E;
    simpl in *; try discriminate; [now split|].
  injection E as -> E. injection L as L.
  destruct (IH a' L E) as [-> ->]. now split.
Qed.

(** X7.  For a time in the ranges of [gmtime], [getFormattedTime] is six
    digits followed by [.00], and two times are printed alike exactly
    when hour, minute and second agree: the fraction of a second is
    never anything but [.00]. *)
Theorem getFormattedTime_six_digits (t1 t2 : tm) :
  valid_tm t1 -> valid_tm t2 ->
  (exists hhmmss : string,
      getFormattedTime t1 = hhmmss ++ ".00"
      /\ String.length hhmmss = 6%nat
      /\ Str.all is_digit hhmmss = true)
  /\ (getFormattedTime t1 = getFormattedTime t2 <->
      tm_hour t1 = tm_hour t2 /\ tm_min t1 = tm_min t2
      /\ tm_sec t1 = tm_sec t2).
Proof.
  intros (S1 & M1 & H1 & _) (S2 & M2 & H2 & _).
  unfold getFormattedTime.
  destruct (put_int_w2_digits (tm_hour t1)) as [Lh Dh]; [lia|].
  destruct (put_int_w2_digits (tm_min t1)) as [Lm Dm]; [lia|].
  destruct (put_int_w2_digits (tm_sec t1)) as [Ls Ds]; [lia|].
  destruct (put_int_w2_digits (tm_hour t2)) as [Lh2 _]; [lia|].
  destruct (put_int_w2_digits (tm_min t2)) as [Lm2 _]; [lia|].
  split.
  - exists (put_int_w2 (tm_hour t1) ++ put_int_w2 (tm_min t1)
              ++ put_int_w2 (tm_sec t1)).
    rewrite !StrFacts.app_assoc, !StrFacts.length_app, !StrFacts.all_app.
    rewrite Lh, Lm, Ls, Dh, Dm, Ds. auto.
  - split.
    + intros E.
      apply app_inj_length in E as [Eh E]; [|congruence].
      apply app_inj_length in E as [Em E]; [|congruence].
      apply app_inj_length in E as [Es _].
      * repeat split; apply put_int_w2_inj; auto; lia.
      * destruct (put_int_w2_digits (tm_sec t2)) as [Ls2 _]; [lia|].
        congruence.
    + intros (-> & -> & ->). reflexivity.
Qed.

Lemma getFormattedTime_six_digits_witness :
  getFormattedTime sample_tm = getFormattedTime (mk_tm 12 45 10 2 3 99) <->
  tm_hour sample_tm = 10 /\ tm_min sample_tm = 45 /\ tm_sec sample_tm = 12.
Proof.
  apply (proj2 (getFormattedTime_six_digits sample_tm (mk_tm 12 45 10 2 3 99)
           ltac:(unfold valid_tm; simpl; lia)
           ltac:(unfold valid_tm; simpl; lia))).
Defined.

(** X8.  For a date in the ranges of [gmtime], [getFormattedDate] is six
    digits, and two dates are printed alike exactly when day and month
    agree and the years differ by a multiple of 100: the century is
    not in the text. *)
Theorem getFormattedDate_drops_century (t1 t2 : tm) :
  valid_tm t1 -> valid_tm t2 ->
  (String.length (getFormattedDate t1) = 6%nat
   /\ Str.all is_digit (getFormattedDate t1) = true)
  /\ (getFormattedDate t1 = getFormattedDate t2 <->
      tm_mday t1 = tm_mday t2 /\ tm_mon t1 = tm_mon t2
      /\ tm_year t1 mod 100 = tm_year t2 mod 100).
Proof.
  intros (_ & _ & _ & D1 & M1 & Y1) (_ & _ & _ & D2 & M2 & Y2).
  unfold getFormattedDate.
  rewrite !Z.rem_mod_nonneg by lia.
  pose proof (Z.mod_pos_bound (tm_year t1) 100 ltac:(lia)) as R1.
  pose proof (Z.mod_pos_bound (tm_year t2) 100 ltac:(lia)) as R2.
  destruct (put_int_w2_digits (tm_mday t1)) as [Ld Dd]; [lia|].
  destruct (put_int_w2_digits (tm_mon t1 + 1)) as [Lm Dm]; [lia|].
  destruct (put_int_w2_digits (tm_year t1 mod 100)) as [Ly Dy]; [lia|].
  destruct (put_int_w2_digits (tm_mday t2)) as [Ld2 _]; [lia|].
  destruct (put_int_w2_digits (tm_mon t2 + 1)) as [Lm2 _]; [lia|].
  split.
  - rewrite !StrFacts.length_app, !StrFacts.all_app.
    rewrite Ld, Lm, Ly, Dd, Dm, Dy. auto.
  - split.
    + intros E.
      apply app_inj_length in E as [Ed E]; [|congruence].
      apply app_inj_length in E as [Em Ey]; [|congruence].
      apply put_int_w2_inj in Ed, Em, Ey; try lia.
    + intros (-> & -> & ->). reflexivity.
Qed.

(** 1 October 1924 and 1 October 2024. *)
Lemma getFormattedDate_drops_century_witness :
  getFormattedDate (mk_tm 0 0 0 1 9 24) = getFormattedDate sample_tm.
Proof.
  apply (proj2 (getFormattedDate_drops_century (mk_tm 0 0 0 1 9 24) sample_tm
           ltac:(unfold valid_tm; simpl; lia)
           ltac:(unfold valid_tm; simpl; lia))).
  simpl. repeat split.
Defined.

(* ================================================================== *)
(** * The length and the alphabet of a sentence *)

Lemma fields_of_drawn_all (p : ascii -> bool) (w : World) :
  (forall c, num_char c = true -> p c = true) ->
  p "A"%char = true -> p "N"%char = true -> p "S"%char = true ->
  p "E"%char = true -> p "W"%char = true ->
  Forall (fun f => Str.all p f = true) (fields_of_fix (fix_of w)).
Proof.
  intros Hnum HA HN HS HE HW.
  assert (Num : forall s, Str.all num_char s = true -> Str.all p s = true)
    by (intros s; now apply StrFacts.all_impl).
  assert (Dir : forall (b : bool) x y, p x = true -> p y = true ->
            Str.all p (char_string (if b then x else y)) = true)
    by (intros [] x y Hx Hy; simpl; now rewrite ?Hx, ?Hy).
  unfold fields_of_fix, fix_of, drawFix, bind, ret, gmtime_now, rand.
  cbn [fst snd clock rand_seq rand_pos utc date latDegrees latMinutes
       latDirection longDegrees longMinutes lonDirection varDirection].
  repeat apply Forall_cons; try apply Forall_nil;
    try (apply Dir; assumption);
    try (simpl; now rewrite HA);
    apply Num; try reflexivity;
    rewrite ?StrFacts.all_app, ?all_to_string_int, ?all_to_string_double;
    auto using all_getFormattedTime, all_getFormattedDate.
Qed.

Lemma c_str_id (s : string) :
  Str.all (Str.neqb Ascii.zero) s = true -> c_str s = s.
Proof. intros H. unfold c_str. now rewrite StrFacts.split_first_None. Qed.

Lemma count_char_app (c : ascii) (a b : string) :
  count_char c (a ++ b) = (count_char c a + count_char c b)%nat.
Proof. induction a as [|x a IH]; simpl; [reflexivity | rewrite IH; lia]. Qed.

Lemma count_char_none (c : ascii) (s : string) :
  Str.all (Str.neqb c) s = true -> count_char c s = 0%nat.
Proof.
  induction s as [|x s IH]; simpl; [reflexivity|].
  unfold Str.neqb at 1. rewrite andb_true_iff, negb_true_iff.
  intros [-> H]. now rewrite IH.
Qed.

Lemma generated_sentence_alphabet_all (w : World) :
  Str.all sentence_char (fst (generateGNSSData w)) = true.
Proof.
  rewrite generateGNSSData_encode. cbn [fst]. unfold encode.
  rewrite sentence_body_concat.
  set (fields := fields_of_fix (fix_of w)).
  assert (Hf : Forall (fun f => Str.all sentence_char f = true) fields).
  { apply fields_of_drawn_all; try reflexivity.
    intros c. destruct c as [[] [] [] [] [] [] [] []]; vm_compute; congruence. }
  assert (Hc : calculateChecksum ("$GPRMC," ++ String.concat "," fields)
               = ChecksumEngine.toHex
                   (ChecksumEngine.compute
                      ("GPRMC," ++ String.concat "," fields)))
    by apply calculateChecksum_spec.
  rewrite Hc, !StrFacts.all_app.
  rewrite (all_concat sentence_char "," fields) by (reflexivity || exact Hf).
  destruct (toHex_shape _ (compute_byte ("GPRMC," ++ String.concat "," fields)))
    as [_ Hhex].
  assert (H2 : Str.all sentence_char
                 (ChecksumEngine.toHex
                    (ChecksumEngine.compute
                       ("GPRMC," ++ String.concat "," fields))) = true).
  { eapply StrFacts.all_impl; [|exact Hhex].
    intros c. destruct c as [[] [] [] [] [] [] [] []];
      vm_compute; congruence. }
  rewrite H2. reflexivity.
Qed.

(** X9.  Every sentence is written with digits, uppercase letters and
    the five characters [$ , * . -] only.  It holds no quote and no NUL,
    so the statement that [storeValidData] would hand to SQLite for it
    is the whole concatenation and holds exactly its two own quotes. *)
Theorem generated_sentence_alphabet (w : World) :
  Str.all sentence_char (fst (generateGNSSData w)) = true
  /\ store_command (fst (generateGNSSData w))
     = insert_sql (fst (generateGNSSData w))
  /\ count_char "'" (insert_sql (fst (generateGNSSData w))) = 2%nat.
Proof.
  pose proof (generated_sentence_alphabet_all w) as H.
  set (s := fst (generateGNSSData w)) in *.
  assert (Hq : Str.all (Str.neqb "'") s = true).
  { eapply StrFacts.all_impl; [|exact H].
    intros c. destruct c as [[] [] [] [] [] [] [] []];
      vm_compute; congruence. }
  assert (Hz : Str.all (Str.neqb Ascii.zero) s = true).
  { eapply StrFacts.all_impl; [|exact H].
    intros c. destruct c as [[] [] [] [] [] [] [] []];
      vm_compute; congruence. }
  split; [exact H|]. split.
  - unfold store_command. apply c_str_id. unfold insert_sql.
    now rewrite !StrFacts.all_app, Hz.
  - unfold insert_sql. rewrite !count_char_app, (count_char_none _ _ Hq).
    reflexivity.
Qed.

Lemma to_string_minutes_length (x : Q) :
  (0 <= x)%Q -> (x <= 5999995 # 100000)%Q ->
  (8 <= String.length (Binary64.to_string x) <= 9)%nat.
Proof.
  intros H0 H1. unfold Binary64.to_string.
  assert (E : (Qabs x == x)%Q) by (apply Qabs_pos; exact H0).
  set (n := Binary64.rne (Qabs x * inject_Z 1000000)).
  assert (Hn : 0 <= n <= 59999950).
  { unfold n. change (inject_Z 1000000) with 1000000%Q. split.
    - apply Binary64Facts.rne_ge_Z. change (inject_Z 0) with 0%Q. lra.
    - pose proof (Binary64Facts.rne_bounds (Qabs x * 1000000)) as [B _].
      assert (L : (inject_Z (Binary64.rne (Qabs x * 1000000))
                   < inject_Z 59999951)%Q).
      { change (inject_Z 59999951) with 59999951%Q. lra. }
      rewrite <- Zlt_Qlt in L. lia. }
  destruct (Qlt_le_dec x 0) as [F|_]; [lra|].
  rewrite !StrFacts.length_app, length_pad_left.
  pose proof (Z.div_pos n 1000000 ltac:(lia) ltac:(lia)).
  pose proof (Z.div_lt_upper_bound n 1000000 60 ltac:(lia) ltac:(lia)).
  pose proof (Z.mod_pos_bound n 1000000 ltac:(lia)).
  pose proof (WidthFacts.length_to_string_le 2 (n / 1000000)
                ltac:(lia) ltac:(simpl; lia)).
  pose proof (WidthFacts.length_to_string_le 6 (n mod 1000000)
                ltac:(lia) ltac:(simpl; lia)).
  simpl (String.length ""). simpl (String.length ".").
  lia.
Qed.

(** X10.  With a clock in the ranges of [gmtime], every sentence has
    between 68 and 73 characters: the degrees are printed without
    leading zeros, the minutes with six decimals and at most two
    digits before the point, everything else has a fixed width. *)
Theorem generated_sentence_length (w : World) :
  valid_tm (clock w) ->
  (68 <= String.length (fst (generateGNSSData w)) <= 73)%nat.
Proof.
  intros (S1 & M1 & H1 & D1 & Mo1 & Y1).
  rewrite generateGNSSData_encode. cbn [fst]. unfold encode, sentence_body.
  destruct (calculateChecksum_spec "$"
              ("GPRMC," ++ String.concat "," (fields_of_fix (fix_of w))))
    as [].
  assert (W2 : forall x, 0 <= x <= 99 ->
            String.length (put_int_w2 x) = 2%nat)
    by (intros x Hx; apply (length_put_int_w2 x); lia).
  assert (LT : String.length (getFormattedTime (clock w)) = 9%nat).
  { unfold getFormattedTime. rewrite !StrFacts.length_app, !W2 by lia.
    reflexivity. }
  assert (LD : String.length (getFormattedDate (clock w)) = 6%nat).
  { pose proof (Z.mod_pos_bound (tm_year (clock w)) 100 ltac:(lia)).
    unfold getFormattedDate. rewrite Z.rem_mod_nonneg by lia.
    rewrite !StrFacts.length_app, !W2 by lia. reflexivity. }
  unfold fix_of, drawFix, bind, ret, gmtime_now, rand.
  cbn [fst snd clock rand_seq rand_pos utc date latDegrees latMinutes
       latDirection longDegrees longMinutes lonDirection varDirection].
  set (r1 := rand_seq w (rand_pos w)).
  set (r2 := rand_seq w (S (rand_pos w))).
  set (r3 := rand_seq w (S (S (rand_pos w)))).
  set (r4 := rand_seq w (S (S (S (rand_pos w))))).
  destruct (random_coordinate_tight LATITUDE_DEGREE_MAX r1 r2)
    as (A1 & A2 & A3); [reflexivity | discriminate |].
  destruct (random_coordinate_tight LONGITUDE_DEGREE_MAX r3 r4)
    as (B1 & B2 & B3); [reflexivity | discriminate |].
  pose proof (to_string_minutes_length _ A2 A3) as LA.
  pose proof (to_string_minutes_length _ B2 B3) as LB.
  rewrite A1, B1 in *.
  pose proof (N.mod_upper_bound r1 LATITUDE_DEGREE_MAX ltac:(discriminate)) as U1.
  pose proof (N.mod_upper_bound r3 LONGITUDE_DEGREE_MAX ltac:(discriminate)) as U3.
  apply N2Z.inj_lt in U1, U3.
  pose proof (N2Z.is_nonneg (r1 mod LATITUDE_DEGREE_MAX)).
  pose proof (N2Z.is_nonneg (r3 mod LONGITUDE_DEGREE_MAX)).
  change (Z.of_N LATITUDE_DEGREE_MAX) with 90 in U1.
  change (Z.of_N LONGITUDE_DEGREE_MAX) with 180 in U3.
  pose proof (WidthFacts.length_to_string_le 2
                (Z.of_N (r1 mod LATITUDE_DEGREE_MAX))
                ltac:(lia) ltac:(simpl; lia)) as La.
  pose proof (WidthFacts.length_to_string_le 3
                (Z.of_N (r3 mod LONGITUDE_DEGREE_MAX))
                ltac:(lia) ltac:(simpl; lia)) as Lc.
  rewrite !StrFacts.length_app.
  rewrite calculateChecksum_length, LT, LD.
  unfold char_string. simpl String.length.
  lia.
Qed.

Lemma generated_sentence_length_witness :
  (68 <= String.length (fst (generateGNSSData sample_world)) <= 73)%nat.
Proof.
  apply generated_sentence_length. unfold valid_tm. simpl. lia.
Defined.

(* ================================================================== *)
(** * The sender: [gnssDataHandler] and [main] *)

Lemma generateGNSSData_world (w : World) :
  snd (generateGNSSData w)
  = mk_World (clock w) (rand_seq w) (7 + rand_pos w).
Proof. reflexivity. Qed.

Lemma gnssDataHandler_run (r : Z) (w : World) :
  Sender.gnssDataHandler r w
  = (Sender.publish_of (fst (generateGNSSData w))
       :: (if r =? 0 then [] else [Sender.PublishFailed r]),
     mk_World (clock w) (rand_seq w) (7 + rand_pos w)).
Proof.
  unfold Sender.gnssDataHandler, bind, ret.
  destruct (generateGNSSData w) as [s w'] eqn:E.
  pose proof (generateGNSSData_world w) as Hw. rewrite E in Hw.
  cbn [snd] in Hw. subst w'. reflexivity.
Qed.

Lemma publish_calls_app (a b : list Sender.Event) :
  Sender.publish_calls (a ++ b)
  = (Sender.publish_calls a ++ Sender.publish_calls b)%list.
Proof. apply filter_app. Qed.

Lemma publish_failures_app (a b : list Sender.Event) :
  Sender.publish_failures (a ++ b)
  = (Sender.publish_failures a ++ Sender.publish_failures b)%list.
Proof. apply flat_map_app. Qed.

Lemma publish_loop_S (env : Sender.Env) (i n : nat) (w : World) :
  Sender.publish_loop env i (S n) w
  = let w1 := mk_World (Sender.clock_after env i) (rand_seq w)
                (7 + rand_pos w) in
    ((Sender.publish_of (fst (generateGNSSData w))
        :: (if Sender.publish_rc env i =? 0 then []
            else [Sender.PublishFailed (Sender.publish_rc env i)])
        ++ Sender.Sleep 2 :: fst (Sender.publish_loop env (S i) n w1))%list,
     snd (Sender.publish_loop env (S i) n w1)).
Proof.
  cbn [Sender.publish_loop]. unfold bind at 1.
  rewrite gnssDataHandler_run. unfold bind at 1.
  unfold Sender.sleep_for at 1. cbn [clock rand_seq rand_pos].
  unfold bind, ret.
  now destruct (Sender.publish_loop env (S i) n _).
Qed.

(** The loop from iteration [i] on: each iteration draws seven numbers,
    then the clock moves on. *)
Lemma publish_loop_run (env : Sender.Env) (w : World) (n i : nat) :
  let r := Sender.publish_loop env i n (Sender.world_at env w i) in
  Sender.publish_calls (fst r)
  = List.map (fun k => Sender.publish_of
                         (fst (generateGNSSData (Sender.world_at env w k))))
             (seq i n)
  /\ Sender.publish_failures (fst r)
     = List.filter (fun r => negb (r =? 0))
         (List.map (Sender.publish_rc env) (seq i n))
  /\ snd r = Sender.world_at env w (i + n).
Proof.
  cbv zeta. revert i. induction n as [|n IH]; intros i.
  - cbn. rewrite Nat.add_0_r. auto.
  - rewrite publish_loop_S. cbv zeta.
    assert (W : mk_World (Sender.clock_after env i)
                  (rand_seq (Sender.world_at env w i))
                  (7 + rand_pos (Sender.world_at env w i))
                = Sender.world_at env w (S i))
      by (unfold Sender.world_at; cbn [rand_seq rand_pos]; f_equal; lia).
    rewrite W.
    destruct (IH (S i)) as (A & B & C).
    destruct (Sender.publish_loop env (S i) n (Sender.world_at env w (S i)))
      as [rest w'].
    cbn [fst snd] in *.
    replace (i + S n)%nat with (S i + n)%nat by lia.
    split; [|split; [|exact C]].
    + change (Sender.publish_of ?s :: ?f ++ Sender.Sleep 2 :: rest)%list
        with ([Sender.publish_of s] ++ f ++ [Sender.Sleep 2] ++ rest)%list.
      rewrite !publish_calls_app, A.
      destruct (Sender.publish_rc env i =? 0); reflexivity.
    + change (Sender.publish_of ?s :: ?f ++ Sender.Sleep 2 :: rest)%list
        with ([Sender.publish_of s] ++ f ++ [Sender.Sleep 2] ++ rest)%list.
      rewrite !publish_failures_app, B.
      cbn [seq List.map List.filter].
      destruct (Sender.publish_rc env i =? 0); reflexivity.
Qed.

(** X11.  Once the client is created and connected, [main] of the sender
    calls [mosquitto_publish] five times, on the topic [gnss/data] with
    QoS 0 and no retain flag, each time with a fresh sentence and its
    length; a failing call is reported with its return code and changes
    neither the following calls nor the exit status 0.  The run takes
    35 numbers from [rand()]. *)
Theorem sender_main_publishes_five (env : Sender.Env) (w : World) :
  Sender.new_ok env = true -> Sender.connect_rc env = 0 ->
  let sentence k := fst (generateGNSSData (Sender.world_at env w k)) in
  let tr := snd (fst (Sender.main env w)) in
  fst (fst (Sender.main env w)) = 0
  /\ Sender.publish_calls tr
     = List.map (fun k => Sender.publish_of (sentence k)) (seq 0 5)
  /\ Sender.publish_failures tr
     = List.filter (fun r => negb (r =? 0))
         (List.map (Sender.publish_rc env) (seq 0 5))
  /\ Forall (fun m => validateNMEAFormat m = true) (Sender.published tr)
  /\ snd (Sender.main env w) = Sender.world_at env w 5.
Proof.
  intros Hn Hc. cbv zeta. unfold Sender.main. rewrite Hn, Hc.
  cbn [negb Z.eqb]. unfold bind, ret.
  destruct (publish_loop_run env w 5 0) as (A & B & C).
  assert (W0 : Sender.world_at env w 0 = w) by now destruct w.
  rewrite W0 in A, B, C.
  destruct (Sender.publish_loop env 0 5 w) as [evs w'].
  cbn [fst snd] in *.
  assert (P : Sender.published evs
              = Sender.published (Sender.publish_calls evs)).
  { clear. unfold Sender.published, Sender.publish_calls.
    induction evs as [|e evs IH]; [reflexivity|].
    destruct e; cbn [flat_map filter List.app]; now rewrite <- ?IH. }
  split; [reflexivity|]. split; [|split; [|split]].
  - rewrite !publish_calls_app, A. reflexivity.
  - rewrite !publish_failures_app, B. cbn. now rewrite app_nil_r.
  - unfold Sender.published. rewrite !flat_map_app.
    fold (Sender.published evs). rewrite P, A. cbn.
    repeat constructor;
      rewrite generateGNSSData_encode; cbn [fst];
      unfold encode, sentence_body;
      change "$GPRMC," with ("$GPRMC" ++ ",");
      rewrite !StrFacts.app_assoc; apply validateNMEAFormat_app.
  - exact C.
Qed.

Lemma sender_main_publishes_five_witness :
  fst (fst (Sender.main
              (Sender.mk_Env true 0 (fun i => Z.of_nat i)
                 (fun _ => sample_tm)) sample_world)) = 0
  /\ Sender.publish_failures
       (snd (fst (Sender.main
                    (Sender.mk_Env true 0 (fun i => Z.of_nat i)
                       (fun _ => sample_tm)) sample_world)))
     = [1; 2; 3; 4].
Proof.
  destruct (sender_main_publishes_five
              (Sender.mk_Env true 0 (fun i => Z.of_nat i)
                 (fun _ => sample_tm)) sample_world eq_refl eq_refl)
    as (A & _ & B & _).
  split; [exact A | exact B].
Defined.

(** X12.  The exit status of the sender is 0 or 1, and it is 0 exactly
    when the client was created and connected.  When it is 1 nothing
    was published, no random number was drawn, and neither
    [mosquitto_destroy] nor [mosquitto_lib_cleanup] was called. *)
Theorem sender_main_exit_status (env : Sender.Env) (w : World) :
  let rc := fst (fst (Sender.main env w)) in
  let tr := snd (fst (Sender.main env w)) in
  (rc = 0 \/ rc = 1)
  /\ (rc = 0 <-> Sender.new_ok env = true /\ Sender.connect_rc env = 0)
  /\ (rc = 1 ->
      Sender.published tr = [] /\ snd (Sender.main env w) = w
      /\ ~ In Sender.Destroy tr /\ ~ In Sender.LibCleanup tr).
Proof.
  cbv zeta. unfold Sender.main.
  destruct (Sender.new_ok env); cbn [negb].
  - destruct (Z.eqb_spec (Sender.connect_rc env) 0) as [E|E]; cbn [negb].
    + unfold bind, ret.
      destruct (Sender.publish_loop env 0 5 w) as [evs w']. cbn [fst snd].
      split; [now left|]. split; [tauto|]. discriminate.
    + cbn. split; [now right|]. split.
      * split; [discriminate | tauto].
      * intros _. repeat split; try reflexivity;
          intros H; repeat (destruct H as [H|H]; [discriminate|]); exact H.
  - cbn. split; [now right|]. split.
    + split; [discriminate | intros []; discriminate].
    + intros _. repeat split; try reflexivity;
        intros H; repeat (destruct H as [H|H]; [discriminate|]); exact H.
Qed.

(* ================================================================== *)
(** * The receiver: more on the loop *)

Module RunFacts.
Import ReceiverFacts LoopFacts.
#[local] Open Scope list_scope.
#[local] Open Scope nat_scope.

(** The invariant is kept from every state that satisfies it. *)
Lemma run_Inv_from (inputs : list Input) (s : State) (tr : list Event) :
  Inv s tr -> Inv (fst (run inputs s)) (tr ++ snd (run inputs s)).
Proof.
  revert s tr. induction inputs as [|i rest IH]; intros s tr H.
  - cbn [run fst snd]. now rewrite app_nil_r.
  - rewrite run_cons. cbn [fst snd]. rewrite app_assoc.
    apply IH. now apply step_Inv.
Qed.

(** Whatever [running] is when the loop is reached. *)
Lemma Inv_start (r : bool) : Inv (mk_State L_while r "" false) [].
Proof. repeat split; simpl; auto. constructor. Qed.

(** One message at most is taken from each call of [mosquitto_loop]. *)
Lemma step_polls (i : Input) (s : State) (tr : list Event) :
  List.length (logged tr) + List.length (to_log s) <= polls tr ->
  List.length (logged (tr ++ snd (step i s)))
    + List.length (to_log (fst (step i s)))
  <= polls (tr ++ snd (step i s)).
Proof.
  intros H. destruct s as [l r m v]. destruct i as [|ds rc].
  - cbn [step fst snd handle_signal]. unfold to_log in *.
    cbn [pc receivedMessage] in *.
    rewrite logged_app, polls_app, length_app. cbn. lia.
  - rewrite logged_app, polls_app, length_app.
    destruct l; cbn [step pc running receivedMessage isValid goto fst snd];
      unfold logGNSSData, storeValidData; unfold to_log in *;
      cbn [pc running receivedMessage isValid goto] in *.
    + destruct r; cbn; lia.
    + rewrite fold_on_message. cbn [pc receivedMessage goto].
      change (CallLoop :: List.map Delivered ds)
        with ([CallLoop] ++ List.map Delivered ds).
      rewrite logged_app, polls_app, logged_map, polls_map.
      destruct (String.eqb (last ds m) ""); cbn in *; lia.
    + destruct (String.eqb m ""); cbn in *; lia.
    + cbn in *. lia.
    + cbn in *. lia.
    + destruct v; cbn in *; lia.
    + cbn in *. lia.
    + cbn in *. lia.
Qed.

Lemma run_polls (inputs : list Input) (s : State) (tr : list Event) :
  List.length (logged tr) + List.length (to_log s) <= polls tr ->
  List.length (logged (tr ++ snd (run inputs s)))
    + List.length (to_log (fst (run inputs s)))
  <= polls (tr ++ snd (run inputs s)).
Proof.
  revert s tr. induction inputs as [|i rest IH]; intros s tr H.
  - cbn [run fst snd]. now rewrite app_nil_r.
  - rewrite run_cons. cbn [fst snd]. rewrite app_assoc.
    apply IH. now apply step_polls.
Qed.

(** One whole iteration on one non-empty payload. *)
Lemma iteration_on (rc v : bool) (m : string) :
  m <> "" ->
  run (Run [] rc :: Run [m] rc :: repeat (Run [] rc) 5)
      (mk_State L_while true "" v)
  = (mk_State L_while true "" (validateNMEAFormat m),
     [CallLoop; Delivered m; Log m; Validate m (validateNMEAFormat m)]
       ++ (if validateNMEAFormat m then [Exec (store_command m) rc]
           else [])).
Proof.
  intros Hm. apply String.eqb_neq in Hm.
  cbn. rewrite Hm. cbn.
  destruct (validateNMEAFormat m); reflexivity.
Qed.

Lemma one_per_poll_run (rc : bool) (l : list string) (v : bool) :
  Forall (fun m => m <> "") l ->
  let r := run (one_per_poll rc l) (mk_State L_while true "" v) in
  pc (fst r) = L_while /\ running (fst r) = true
  /\ receivedMessage (fst r) = ""
  /\ delivered (snd r) = l /\ logged (snd r) = l /\ validated (snd r) = l
  /\ executed (snd r) = stored_of l
  /\ polls (snd r) = List.length l.
Proof.
  cbv zeta. intros H. revert v.
  induction H as [|m l Hm Hl IH]; intros v.
  - cbn. repeat split; reflexivity.
  - unfold one_per_poll. cbn [flat_map]. fold (one_per_poll rc l).
    rewrite run_app, (iteration_on rc v m Hm). cbn [fst snd].
    destruct (IH (validateNMEAFormat m)) as (A & B & C & D & E & F & G & P).
    rewrite A, B, C.
    trace_norm. rewrite D, E, F, G, P.
    unfold stored_of. cbn [List.filter].
    destruct (validateNMEAFormat m); cbn; repeat split; reflexivity.
Qed.

End RunFacts.

(** X13.  Whenever the receiver stands between two iterations (at the
    test of the loop, before the call of [mosquitto_loop], or after the
    loop), the buffer is empty, every message logged so far has been
    validated, and the statements handed to SQLite are exactly those
    of the logged messages that start with the prefix, in order. *)
Theorem nothing_left_half_processed (inputs : list Input) :
  between_iterations (pc (fst (run inputs init))) = true ->
  let tr := snd (run inputs init) in
  receivedMessage (fst (run inputs init)) = ""
  /\ validated tr = logged tr
  /\ executed tr = stored_of (logged tr).
Proof.
  intros Hb. cbv zeta.
  destruct (LoopFacts.run_Inv inputs) as (_ & H2 & H3 & H4).
  assert (V : to_validate (fst (run inputs init)) = []).
  { unfold to_validate. now destruct (pc (fst (run inputs init))). }
  assert (E : to_execute (fst (run inputs init)) = []).
  { unfold to_execute. now destruct (pc (fst (run inputs init))). }
  rewrite V, E, !app_nil_r in *.
  split; [now apply H4|]. split; [now symmetry|].
  now rewrite H2.
Qed.

Lemma nothing_left_half_processed_witness :
  executed (snd (run (one_per_poll true ["$GPRMC,1"; "$GPGGA,2"]) init))
  = stored_of (logged (snd (run (one_per_poll true ["$GPRMC,1"; "$GPGGA,2"])
                              init))).
Proof.
  apply (nothing_left_half_processed
           (one_per_poll true ["$GPRMC,1"; "$GPGGA,2"])).
  reflexivity.
Defined.

(** X14.  The receiver takes one message at most from each call of
    [mosquitto_loop]: in every run no more messages are logged than
    [mosquitto_loop] was called, and no more statements executed than
    messages logged.  So of several payloads that arrive during one
    call one at most is processed. *)
Theorem one_message_per_poll (inputs : list Input) :
  let tr := snd (run inputs init) in
  (List.length (executed tr) <= List.length (logged tr))%nat
  /\ (List.length (logged tr) <= polls tr)%nat.
Proof.
  cbv zeta. split.
  - destruct (LoopFacts.run_Inv inputs) as (_ & H2 & H3 & _).
    assert (L : (List.length (stored_of (validated (snd (run inputs init))))
                 <= List.length (validated (snd (run inputs init))))%nat).
    { unfold stored_of. rewrite length_map. apply filter_length_le. }
    rewrite H3 in L. rewrite H2. rewrite !length_app in *. lia.
  - pose proof (RunFacts.run_polls inputs init [] (Nat.le_refl _)) as H.
    cbn [List.app] in H. lia.
Qed.

(* ================================================================== *)
(** * The receiver: the statement of [storeValidData] *)

Lemma sentence_char_statement (s : string) :
  Str.all sentence_char s = true ->
  store_command s = insert_sql s /\ count_char "'" (insert_sql s) = 2%nat.
Proof.
  intros H.
  assert (Hq : Str.all (Str.neqb "'") s = true).
  { eapply StrFacts.all_impl; [|exact H].
    intros c. destruct c as [[] [] [] [] [] [] [] []];
      vm_compute; congruence. }
  assert (Hz : Str.all (Str.neqb Ascii.zero) s = true).
  { eapply StrFacts.all_impl; [|exact H].
    intros c. destruct c as [[] [] [] [] [] [] [] []];
      vm_compute; congruence. }
  split.
  - unfold store_command. apply c_str_id. unfold insert_sql.
    now rewrite !StrFacts.all_app, Hz.
  - unfold insert_sql. rewrite !count_char_app, (count_char_none _ _ Hq).
    reflexivity.
Qed.

Lemma insert_sql_inj (m m' : string) : insert_sql m = insert_sql m' -> m = m'.
Proof.
  unfold insert_sql. intros E.
  assert (E' : m ++ "');" = m' ++ "');") by (cbn in E; congruence).
  assert (L : String.length m = String.length m').
  { apply (f_equal String.length) in E'.
    rewrite !StrFacts.length_app in E'. lia. }
  now destruct (app_inj_length _ _ _ _ L E').
Qed.

(** X15.  A payload with a NUL byte: [sql.c_str()] ends at the NUL, so
    the statement handed to [sqlite3_exec] stops after the bytes before
    it.  The closing quote and parenthesis are missing, and what
    follows the NUL in the payload never reaches SQLite. *)
Theorem store_command_cut_at_nul (a b : string) :
  Str.all (Str.neqb Ascii.zero) a = true ->
  store_command (a ++ String Ascii.zero b)
  = "INSERT INTO GNSS_DATA (NMEA_DATA) VALUES ('" ++ a.
Proof.
  intros H. unfold store_command, insert_sql, c_str.
  rewrite <- !StrFacts.app_assoc.
  rewrite (StrFacts.app_assoc _ (String Ascii.zero b)).
  change (String Ascii.zero b ++ "');") with (String Ascii.zero (b ++ "');")).
  rewrite StrFacts.split_first_app; [reflexivity|].
  rewrite StrFacts.all_app. now rewrite H.
Qed.

Lemma store_command_cut_at_nul_witness :
  store_command ("$GPRMC,1" ++ String Ascii.zero ",2")
  = "INSERT INTO GNSS_DATA (NMEA_DATA) VALUES ('$GPRMC,1".
Proof. apply (store_command_cut_at_nul "$GPRMC,1" ",2"). reflexivity. Defined.

(** X16.  Whatever follows the prefix reaches SQLite as it is: a payload
    [$GPRMC] followed by any bytes without NUL, delivered to the
    receiver, is logged, accepted and handed to [sqlite3_exec] between
    the two quotes of the statement, unescaped, so each quote of the
    payload is one more quote of the statement; and two such payloads
    never give the same statement. *)
Theorem payload_reaches_sqlite_verbatim (rest : string) (rc : bool) :
  Str.all (Str.neqb Ascii.zero) rest = true ->
  let m := "$GPRMC" ++ rest in
  snd (run (one_per_poll rc [m]) init)
  = [CallLoop; Delivered m; Log m; Validate m true;
     Exec ("INSERT INTO GNSS_DATA (NMEA_DATA) VALUES ('$GPRMC"
             ++ rest ++ "');") rc]
  /\ count_char "'" (store_command m) = (2 + count_char "'" rest)%nat
  /\ (forall rest' : string,
        Str.all (Str.neqb Ascii.zero) rest' = true ->
        store_command m = store_command ("$GPRMC" ++ rest') -> rest = rest').
Proof.
  intros H m.
  assert (S : forall r, Str.all (Str.neqb Ascii.zero) r = true ->
              store_command ("$GPRMC" ++ r) = insert_sql ("$GPRMC" ++ r)).
  { intros r Hr. unfold store_command. apply c_str_id. unfold insert_sql.
    now rewrite !StrFacts.all_app, Hr. }
  split; [|split].
  - unfold one_per_poll. cbn [flat_map]. rewrite List.app_nil_r.
    unfold init. rewrite RunFacts.iteration_on by discriminate.
    cbn [snd].
    assert (V : validateNMEAFormat m = true) by apply validateNMEAFormat_app.
    pose proof (S rest H) as Sm. fold m in Sm.
    rewrite V, Sm. reflexivity.
  - unfold m. rewrite (S rest H). unfold insert_sql.
    rewrite !count_char_app. cbn. lia.
  - intros rest' H' E. unfold m in E. rewrite (S rest H), (S rest' H') in E.
    apply insert_sql_inj in E. cbn in E. congruence.
Qed.

Lemma payload_reaches_sqlite_verbatim_witness :
  count_char "'" (store_command ("$GPRMC" ++ "'); DROP TABLE GNSS_DATA; --"))
  = 3%nat.
Proof.
  apply (proj1 (proj2
    (payload_reaches_sqlite_verbatim "'); DROP TABLE GNSS_DATA; --" true
       eq_refl))).
Defined.

(* ================================================================== *)
(** * The receiver: [initDatabase] and [main] *)

Lemma loop_events_app (a b : list ReceiverMain.Event) :
  ReceiverMain.loop_events (a ++ b)
  = (ReceiverMain.loop_events a ++ ReceiverMain.loop_events b)%list.
Proof. apply flat_map_app. Qed.

Lemma loop_events_map (tr : list Event) :
  ReceiverMain.loop_events (List.map ReceiverMain.Loop tr) = tr.
Proof. induction tr; simpl; congruence. Qed.

(** After a successful setup [main] is its loop: it has returned, with
    status 0 and after the three calls of the cleanup, exactly when the
    loop has been left. *)
Lemma main_after_setup (env : ReceiverMain.Env) (inputs : list Input) :
  ReceiverMain.setup_ok env = true ->
  let s := fst (run inputs (ReceiverMain.start env)) in
  let r := ReceiverMain.main env inputs in
  ReceiverMain.loop_events (snd r)
    = snd (run inputs (ReceiverMain.start env))
  /\ (pc s = L_exit ->
      fst r = Some 0
      /\ exists pre, snd r
           = (pre ++ [ReceiverMain.SqliteClose; ReceiverMain.Destroy;
                      ReceiverMain.LibCleanup])%list)
  /\ (pc s <> L_exit -> fst r = None).
Proof.
  unfold ReceiverMain.setup_ok. rewrite !andb_true_iff.
  intros [[[Hn Ho] Hc] Hs]. cbv zeta.
  unfold ReceiverMain.main, ReceiverMain.initDatabase.
  rewrite Hn, Ho, Hc, Hs. cbn [negb].
  fold (ReceiverMain.start env).
  destruct (run inputs (ReceiverMain.start env)) as [s tr]. cbn [fst snd].
  destruct (ReceiverMain.early_signal env);
  destruct (ReceiverMain.create_rc env =? 0); cbn [negb];
  destruct (pc s) eqn:E; cbn [fst snd];
    (split; [rewrite !loop_events_app, loop_events_map; cbn;
             now rewrite ?List.app_nil_r|]);
    (split; [try discriminate | try reflexivity; try congruence]);
    intros _; (split; [reflexivity|]);
    eexists; rewrite !List.app_assoc; reflexivity.
Qed.

(** X17.  The receiver returns -1 exactly when [mosquitto_new],
    [sqlite3_open], [mosquitto_connect] or [mosquitto_subscribe] fails.
    It then has not entered its loop, whatever is sent to it, and has
    called none of [sqlite3_close], [mosquitto_destroy] and
    [mosquitto_lib_cleanup].  A failing [CREATE TABLE] is reported only:
    the exit status does not depend on it.  After a successful setup
    and without a signal, [main] does not return. *)
Theorem receiver_main_setup (env : ReceiverMain.Env) (inputs : list Input) :
  let r := ReceiverMain.main env inputs in
  (fst r = Some (-1) <-> ReceiverMain.setup_ok env = false)
  /\ (ReceiverMain.setup_ok env = false ->
      r = ReceiverMain.main env []
      /\ ReceiverMain.loop_events (snd r) = []
      /\ ~ In ReceiverMain.SqliteClose (snd r)
      /\ ~ In ReceiverMain.Destroy (snd r)
      /\ ~ In ReceiverMain.LibCleanup (snd r))
  /\ (forall rc : Z,
        fst (ReceiverMain.main (ReceiverMain.with_create_rc env rc) inputs)
        = fst r)
  /\ (ReceiverMain.setup_ok env = true ->
      ReceiverMain.early_signal env = false -> ~ In Signal inputs ->
      fst r = None).
Proof.
  cbv zeta.
  destruct (ReceiverMain.setup_ok env) eqn:Hok.
  - destruct (main_after_setup env inputs Hok) as (A & B & C).
    split; [|split; [discriminate|split]].
    + split; [|discriminate].
      destruct (pc (fst (run inputs (ReceiverMain.start env)))) eqn:E;
        try (rewrite C by discriminate; discriminate).
      destruct (B eq_refl) as [-> _]. discriminate.
    + intros rc.
      assert (Hok' : ReceiverMain.setup_ok (ReceiverMain.with_create_rc env rc)
                     = true) by exact Hok.
      destruct (main_after_setup _ inputs Hok') as (_ & B' & C').
      change (ReceiverMain.start (ReceiverMain.with_create_rc env rc))
        with (ReceiverMain.start env) in *.
      destruct (pc (fst (run inputs (ReceiverMain.start env)))) eqn:E;
        try (rewrite C, C' by discriminate; reflexivity).
      destruct (B eq_refl) as [-> _]. destruct (B' eq_refl) as [-> _].
      reflexivity.
    + intros _ He Hin. apply C.
      unfold ReceiverMain.start. rewrite He. cbn [negb].
      now apply (LoopFacts.runs_without_signal inputs init).
  - assert (F : forall rc,
              let e := ReceiverMain.with_create_rc env rc in
              ReceiverMain.main e inputs = ReceiverMain.main e []
              /\ fst (ReceiverMain.main e inputs) = Some (-1)
              /\ ReceiverMain.loop_events (snd (ReceiverMain.main e inputs))
                 = []
              /\ ~ In ReceiverMain.SqliteClose
                     (snd (ReceiverMain.main e inputs))
              /\ ~ In ReceiverMain.Destroy (snd (ReceiverMain.main e inputs))
              /\ ~ In ReceiverMain.LibCleanup
                     (snd (ReceiverMain.main e inputs))).
    { intros rc. cbv zeta. revert Hok.
      unfold ReceiverMain.setup_ok, ReceiverMain.main,
        ReceiverMain.initDatabase, ReceiverMain.with_create_rc.
      cbn [ReceiverMain.new_ok ReceiverMain.open_rc ReceiverMain.create_rc
           ReceiverMain.connect_rc ReceiverMain.subscribe_rc
           ReceiverMain.early_signal].
      destruct (ReceiverMain.new_ok env), (ReceiverMain.open_rc env =? 0),
        (ReceiverMain.connect_rc env =? 0),
        (ReceiverMain.subscribe_rc env =? 0), (rc =? 0),
        (ReceiverMain.early_signal env);
        cbn; try discriminate; intros _;
        repeat split; try reflexivity;
        intros H; repeat (destruct H as [H|H]; [discriminate|]); exact H. }
    assert (Es : env = ReceiverMain.with_create_rc env
                         (ReceiverMain.create_rc env)) by now destruct env.
    pose proof (F (ReceiverMain.create_rc env)) as F0.
    cbv zeta in F0. rewrite <- Es in F0.
    destruct F0 as (F1 & F2 & F3 & F4 & F5 & F6).
    split; [split; [reflexivity | intros _; exact F2]|].
    split; [intros _; repeat split; assumption|].
    split; [|discriminate].
    intros rc. destruct (F rc) as (_ & G & _). cbv zeta in G.
    now rewrite G, F2.
Qed.

(** X18.  After a successful setup and a signal, seven more statements
    at the latest bring [main] to its end: it calls [sqlite3_close],
    [mosquitto_destroy] and [mosquitto_lib_cleanup], in this order and
    as its last calls, and returns 0.  By then every message that was
    logged has been validated, and those with the prefix handed to
    SQLite. *)
Theorem receiver_main_clean_exit
    (env : ReceiverMain.Env) (before after : list Input) :
  ReceiverMain.setup_ok env = true -> (7 <= steps after)%nat ->
  let r := ReceiverMain.main env (before ++ Signal :: after) in
  let tr := ReceiverMain.loop_events (snd r) in
  fst r = Some 0
  /\ (exists pre, snd r
        = (pre ++ [ReceiverMain.SqliteClose; ReceiverMain.Destroy;
                   ReceiverMain.LibCleanup])%list)
  /\ validated tr = logged tr
  /\ executed tr = stored_of (logged tr).
Proof.
  intros Hok Hst. cbv zeta.
  destruct (main_after_setup env (before ++ Signal :: after) Hok)
    as (A & B & _).
  set (inputs := (before ++ Signal :: after)%list) in *.
  assert (X : pc (fst (run inputs (ReceiverMain.start env))) = L_exit).
  { unfold inputs.
    change (Signal :: after) with ([Signal] ++ after)%list.
    rewrite List.app_assoc, ReceiverFacts.run_app. cbn [fst].
    pose proof (LoopFacts.run_signal_last before (ReceiverMain.start env))
      as Hr.
    destruct (LoopFacts.stopped_run after _ Hr) as (_ & _ & _ & _ & _ & R).
    apply R.
    destruct (pc (fst (run (before ++ [Signal]) (ReceiverMain.start env))));
      simpl; lia. }
  destruct (B X) as [B1 B2].
  split; [exact B1|]. split; [exact B2|].
  rewrite A.
  pose proof (RunFacts.run_Inv_from inputs (ReceiverMain.start env) []
                (RunFacts.Inv_start _)) as (_ & H2 & H3 & _).
  cbn [List.app] in H2, H3.
  unfold to_validate in H2. unfold to_execute in H3.
  rewrite X, !List.app_nil_r in *.
  split; [now symmetry | now rewrite H2].
Qed.

Lemma receiver_main_clean_exit_witness :
  fst (ReceiverMain.main (ReceiverMain.mk_Env true 0 1 0 0 false)
         (one_per_poll true ["$GPRMC,1"]
            ++ Signal :: repeat (Run [] true) 7)%list) = Some 0.
Proof.
  apply (receiver_main_clean_exit (ReceiverMain.mk_Env true 0 1 0 0 false)
           (one_per_poll true ["$GPRMC,1"]) (repeat (Run [] true) 7)).
  - reflexivity.
  - vm_compute. lia.
Defined.

(** X19.  A signal that arrives before the loop is reached: the test of
    the loop fails at once, [mosquitto_loop] is never called, nothing
    is logged or stored, and [main] returns 0 after its cleanup. *)
Theorem receiver_main_early_signal
    (env : ReceiverMain.Env) (inputs : list Input) :
  ReceiverMain.setup_ok env = true ->
  ReceiverMain.early_signal env = true -> (1 <= steps inputs)%nat ->
  let r := ReceiverMain.main env inputs in
  let tr := ReceiverMain.loop_events (snd r) in
  fst r = Some 0
  /\ polls tr = 0%nat /\ logged tr = [] /\ executed tr = [].
Proof.
  intros Hok He Hst. cbv zeta.
  destruct (main_after_setup env inputs Hok) as (A & B & _).
  assert (Hr : running (ReceiverMain.start env) = false)
    by (unfold ReceiverMain.start; now rewrite He).
  destruct (LoopFacts.stopped_run inputs _ Hr) as (_ & P & L & _ & E & R).
  change (pc (ReceiverMain.start env)) with L_while in *.
  cbn [polls_left logs_left execs_left steps_left] in *.
  destruct (B (R Hst)) as [B1 _].
  rewrite A. split; [exact B1|].
  split; [lia|].
  split; [now apply length_zero_iff_nil; lia
         | now apply length_zero_iff_nil; lia].
Qed.

Lemma receiver_main_early_signal_witness :
  fst (ReceiverMain.main (ReceiverMain.mk_Env true 0 0 0 0 true)
         [Run ["$GPRMC,1"] true]) = Some 0.
Proof.
  apply (receiver_main_early_signal (ReceiverMain.mk_Env true 0 0 0 0 true)
           [Run ["$GPRMC,1"] true] eq_refl eq_refl).
  vm_compute. lia.
Defined.

(* ================================================================== *)
(** * From the sender to the table *)

Lemma sender_main_published (env : Sender.Env) (w : World) :
  Sender.new_ok env = true -> Sender.connect_rc env = 0 ->
  Sender.published (snd (fst (Sender.main env w)))
  = List.map (fun k => fst (generateGNSSData (Sender.world_at env w k)))
             (seq 0 5).
Proof.
  intros Hn Hc. unfold Sender.main. rewrite Hn, Hc.
  cbn [negb Z.eqb]. unfold bind, ret.
  destruct (publish_loop_run env w 5 0) as (A & _).
  assert (W0 : Sender.world_at env w 0 = w) by now destruct w.
  rewrite W0 in A.
  destruct (Sender.publish_loop env 0 5 w) as [evs w'].
  cbn [fst snd] in *.
  assert (P : forall l, Sender.published l
                        = Sender.published (Sender.publish_calls l)).
  { unfold Sender.published, Sender.publish_calls.
    induction l as [|e l IH]; [reflexivity|].
    destruct e; cbn [flat_map filter List.app]; now rewrite <- ?IH. }
  unfold Sender.published. rewrite !flat_map_app.
  fold (Sender.published evs). rewrite (P evs), A. reflexivity.
Qed.

Lemma filter_all {A} (f : A -> bool) (l : list A) :
  Forall (fun x => f x = true) l -> List.filter f l = l.
Proof.
  induction 1 as [|x l Hx _ IH]; [reflexivity|].
  cbn. now rewrite Hx, IH.
Qed.

Lemma generated_sentence_prefix (w : World) :
  exists rest, fst (generateGNSSData w) = "$GPRMC" ++ rest.
Proof.
  rewrite generateGNSSData_encode. cbn [fst]. unfold encode, sentence_body.
  change "$GPRMC," with ("$GPRMC" ++ ",").
  rewrite !StrFacts.app_assoc. eexists. reflexivity.
Qed.

(** X20.  Sender and receiver together: when the transport hands each of
    the five sentences of a run of the sender to the receiver in a call
    of [mosquitto_loop] of its own, the receiver logs and accepts all
    five and hands five INSERT statements to SQLite, in the order of
    publication, each holding its sentence unchanged between its two
    quotes. *)
Theorem published_sentences_stored_in_order
    (env : Sender.Env) (w : World) (rc : bool) :
  Sender.new_ok env = true -> Sender.connect_rc env = 0 ->
  let sent := Sender.published (snd (fst (Sender.main env w))) in
  let tr := snd (run (one_per_poll rc sent) init) in
  List.length sent = 5%nat
  /\ logged tr = sent
  /\ validated tr = sent
  /\ executed tr = List.map insert_sql sent
  /\ Forall (fun q => count_char "'" q = 2%nat) (executed tr).
Proof.
  intros Hn Hc. cbv zeta.
  rewrite (sender_main_published env w Hn Hc).
  set (sent := List.map _ (seq 0 5)).
  assert (G : Forall (fun s => exists w', s = fst (generateGNSSData w')) sent).
  { unfold sent. apply Forall_forall. intros s Hs.
    apply in_map_iff in Hs as (k & <- & _). eexists. reflexivity. }
  assert (Hne : Forall (fun m => m <> "") sent).
  { eapply Forall_impl; [|exact G]. intros s (w' & ->).
    destruct (generated_sentence_prefix w') as [rest ->]. discriminate. }
  assert (Hv : Forall (fun m => validateNMEAFormat m = true) sent).
  { eapply Forall_impl; [|exact G]. intros s (w' & ->).
    destruct (generated_sentence_prefix w') as [rest ->].
    apply validateNMEAFormat_app. }
  destruct (RunFacts.one_per_poll_run rc sent false Hne)
    as (_ & _ & _ & _ & L & V & E & _).
  fold init in L, V, E.
  assert (E' : executed (snd (run (one_per_poll rc sent) init))
               = List.map insert_sql sent).
  { rewrite E. unfold stored_of. rewrite (filter_all _ _ Hv).
    apply map_ext_in. intros s Hs.
    rewrite Forall_forall in G. destruct (G s Hs) as (w' & ->).
    apply sentence_char_statement, generated_sentence_alphabet_all. }
  split; [reflexivity|]. split; [exact L|]. split; [exact V|].
  split; [exact E'|].
  rewrite E'. apply Forall_forall. intros q Hq.
  apply in_map_iff in Hq as (s & <- & Hs).
  rewrite Forall_forall in G. destruct (G s Hs) as (w' & ->).
  apply sentence_char_statement, generated_sentence_alphabet_all.
Qed.

Lemma published_sentences_stored_in_order_witness :
  List.length
    (executed
       (snd (run (one_per_poll true
                    (Sender.published
                       (snd (fst (Sender.main
                                    (Sender.mk_Env true 0 (fun _ => 0)
                                       (fun _ => sample_tm))
                                    sample_world)))))
               init))) = 5%nat.
Proof.
  destruct (published_sentences_stored_in_order
              (Sender.mk_Env true 0 (fun _ => 0) (fun _ => sample_tm))
              sample_world true eq_refl eq_refl) as (L & _ & _ & E & _).
  rewrite E, length_map. exact L.
Defined.

(* ================================================================== *)
(** * Degrees and minutes without padding *)

Lemma Qfloor_shift (y : Q) (k : Z) :
  Qfloor (y + inject_Z k) = (Qfloor y + k)%Z.
Proof.
  pose proof (Qfloor_le y) as Hlo. pose proof (Qlt_floor y) as Hhi.
  pose proof (Qfloor_le (y + inject_Z k)) as Hlo'.
  pose proof (Qlt_floor (y + inject_Z k)) as Hhi'.
  rewrite inject_Z_plus in Hhi, Hhi'.
  change (inject_Z 1) with 1%Q in *.
  assert (A : (inject_Z (Qfloor (y + inject_Z k))
               < inject_Z (Qfloor y + k + 1))%Q).
  { rewrite !inject_Z_plus. change (inject_Z 1) with 1%Q. lra. }
  assert (B : (inject_Z (Qfloor y + k)
               < inject_Z (Qfloor (y + inject_Z k) + 1))%Q).
  { rewrite !inject_Z_plus. change (inject_Z 1) with 1%Q. lra. }
  rewrite <- Zlt_Qlt in A, B. lia.
Qed.

(** Rounding commutes with adding an even integer. *)
Lemma rne_shift_even (y : Q) (k : Z) :
  Z.even k = true -> Binary64.rne (y + inject_Z k) = (Binary64.rne y + k)%Z.
Proof.
  intros Hk. unfold Binary64.rne. rewrite Qfloor_shift.
  assert (E : (y + inject_Z k - inject_Z (Qfloor y + k)
               == y - inject_Z (Qfloor y))%Q)
    by (rewrite inject_Z_plus; ring).
  rewrite E, Z.even_add, Hk.
  destruct (y - inject_Z (Qfloor y) ?= 1 # 2)%Q; try lia.
  destruct (Z.even (Qfloor y)); cbn; lia.
Qed.

Lemma to_string_int_tens (a b : Z) :
  1 <= a <= 8 -> 0 <= b <= 9 ->
  to_string_int (10 * a + b) = to_string_int a ++ to_string_int b.
Proof.
  intros Ha Hb.
  assert (T : forallb (fun i =>
                forallb (fun j =>
                  String.eqb (to_string_int (10 * Z.of_nat i + Z.of_nat j))
                    (to_string_int (Z.of_nat i) ++ to_string_int (Z.of_nat j)))
                  (seq 0 10)) (seq 1 8) = true) by (vm_compute; reflexivity).
  rewrite forallb_forall in T.
  specialize (T (Z.to_nat a)). rewrite forallb_forall in T.
  specialize (T ltac:(apply in_seq; lia) (Z.to_nat b) ltac:(apply in_seq; lia)).
  rewrite !Z2Nat.id in T by lia. now apply String.eqb_eq.
Qed.

(** Ten, twenty, ... fifty minutes more: one more digit in front. *)
Lemma to_string_tens (b : Z) (x : Q) :
  1 <= b <= 5 -> (0 <= x)%Q -> (x <= 9)%Q ->
  Binary64.to_string (inject_Z (10 * b) + x)
  = to_string_int b ++ Binary64.to_string x.
Proof.
  intros Hb H0 H9. unfold Binary64.to_string.
  assert (Hb' : (1 <= inject_Z b)%Q).
  { change 1%Q with (inject_Z 1). rewrite <- Zle_Qle. lia. }
  assert (Hq : (inject_Z (10 * b) == 10 * inject_Z b)%Q)
    by (rewrite inject_Z_mult; reflexivity).
  set (n := Binary64.rne (Qabs x * inject_Z 1000000)).
  assert (E : Binary64.rne (Qabs (inject_Z (10 * b) + x) * inject_Z 1000000)
              = (n + 10000000 * b)%Z).
  { unfold n. rewrite <- rne_shift_even.
    - apply Binary64Facts.rne_comp.
      rewrite !Qabs_pos by lra.
      rewrite !inject_Z_mult.
      change (inject_Z 1000000) with 1000000%Q.
      change (inject_Z 10000000) with 10000000%Q.
      change (inject_Z 10) with 10%Q. lra.
    - rewrite Z.even_mul. reflexivity. }
  rewrite E.
  assert (Hn : 0 <= n <= 9000000).
  { unfold n. change (inject_Z 1000000) with 1000000%Q.
    rewrite (Binary64Facts.rne_comp _ (x * 1000000))
      by (rewrite Qabs_pos by lra; reflexivity).
    split.
    - apply Binary64Facts.rne_ge_Z. change (inject_Z 0) with 0%Q. lra.
    - pose proof (Binary64Facts.rne_bounds (x * 1000000)) as [B _].
      assert (L : (inject_Z (Binary64.rne (x * 1000000))
                   < inject_Z 9000001)%Q).
      { change (inject_Z 9000001) with 9000001%Q. lra. }
      rewrite <- Zlt_Qlt in L. lia. }
  destruct (Qlt_le_dec (inject_Z (10 * b) + x) 0) as [F|_]; [lra|].
  destruct (Qlt_le_dec x 0) as [F|_]; [lra|].
  replace (n + 10000000 * b)%Z with (n + (10 * b) * 1000000)%Z by lia.
  rewrite Z.div_add, Z.mod_add by lia.
  pose proof (Z.div_pos n 1000000 ltac:(lia) ltac:(lia)).
  pose proof (Z.div_lt_upper_bound n 1000000 10 ltac:(lia) ltac:(lia)).
  replace (n / 1000000 + 10 * b)%Z with (10 * b + n / 1000000)%Z by lia.
  rewrite to_string_int_tens by lia.
  cbn [String.append]. now rewrite !StrFacts.app_assoc.
Qed.

(** X2.  Degrees and minutes are written one after the other without
    padding, so a sentence does not determine its position: a latitude
    of [10a + b] degrees and at most nine minutes is written like the
    latitude of [a] degrees and [10b] minutes more, and both lie in the
    ranges of the sender, degrees below 90 and minutes below 60. *)
Theorem encode_not_injective (f : PositionFix) (a b : Z) :
  1 <= a <= 8 -> 1 <= b <= 5 ->
  latDegrees f = 10 * a + b ->
  (0 <= latMinutes f)%Q -> (latMinutes f <= 9)%Q ->
  let g := with_latitude f a (inject_Z (10 * b) + latMinutes f) in
  encode g = encode f
  /\ latDegrees g <> latDegrees f
  /\ 0 <= latDegrees g < 90 /\ 0 <= latDegrees f < 90
  /\ (0 <= latMinutes g)%Q /\ (latMinutes g < 60)%Q.
Proof.
  intros Ha Hb Hd H0 H9. cbv zeta.
  assert (Hb' : (inject_Z (10 * b) <= 50)%Q).
  { change 50%Q with (inject_Z 50). rewrite <- Zle_Qle. lia. }
  assert (Hb0 : (0 <= inject_Z (10 * b))%Q).
  { change 0%Q with (inject_Z 0). rewrite <- Zle_Qle. lia. }
  split; [|cbn [with_latitude latDegrees latMinutes];
           repeat split; try lia; lra].
  assert (B : sentence_body
                (with_latitude f a (inject_Z (10 * b) + latMinutes f))
              = sentence_body f).
  { unfold sentence_body, with_latitude.
    cbn [utc date latDegrees latMinutes latDirection longDegrees
         longMinutes lonDirection varDirection].
    rewrite Hd, (to_string_tens b _ Hb H0 H9).
    rewrite to_string_int_tens by lia.
    now rewrite !StrFacts.app_assoc. }
  unfold encode. now rewrite B.
Qed.

Lemma encode_not_injective_witness :
  encode (with_latitude
            (with_latitude (fix_of sample_world) 13 (6 # 1)) 1
            (inject_Z (10 * 3) + (6 # 1)))
  = encode (with_latitude (fix_of sample_world) 13 (6 # 1)).
Proof.
  apply (encode_not_injective
           (with_latitude (fix_of sample_world) 13 (6 # 1)) 1 3);
    try lia; try reflexivity; cbn [latMinutes with_latitude]; lra.
Defined.

(* ================================================================== *)
(** * The printed minutes are the drawn ones *)

Lemma rne_near (k : Z) (y : Q) :
  (inject_Z k - (1 # 2) < y)%Q -> (y < inject_Z k + (1 # 2))%Q ->
  Binary64.rne y = k.
Proof.
  intros H1 H2. pose proof (Binary64Facts.rne_bounds y) as [B1 B2].
  assert (A : (inject_Z (Binary64.rne y) < inject_Z (k + 1))%Q)
    by (rewrite inject_Z_plus; change (inject_Z 1) with 1%Q; lra).
  assert (B : (inject_Z k < inject_Z (Binary64.rne y + 1))%Q)
    by (rewrite inject_Z_plus; change (inject_Z 1) with 1%Q; lra).
  rewrite <- Zlt_Qlt in A, B. lia.
Qed.

(** The four roundings move the minutes by less than a tenth of a
    millionth. *)
Lemma minutes_error (MAX rdeg rfrac : N) :
  (0 < MAX)%N -> (MAX <= 180)%N ->
  let m := minutes_of (random_coordinate MAX rdeg rfrac)
             (Binary64.to_int (random_coordinate MAX rdeg rfrac)) in
  let r := inject_Z (Z.of_N (rfrac mod PRECISION_FACTOR)) in
  (0 <= m)%Q
  /\ (r * 60 - (1 # 10) <= m * 1000000)%Q
  /\ (m * 1000000 <= r * 60 + (1 # 10))%Q.
Proof.
  intros Hpos Hmax. cbv zeta.
  pose proof (N.mod_upper_bound rdeg MAX ltac:(lia)) as Hd.
  pose proof (N.mod_upper_bound rfrac PRECISION_FACTOR ltac:(discriminate)) as Hr.
  unfold PRECISION_FACTOR in Hr.
  destruct (random_coordinate_tight MAX rdeg rfrac Hpos Hmax) as (Hint & _).
  rewrite Hint. clear Hint.
  unfold random_coordinate, Binary64.add, Binary64.div, double_of_N,
    PRECISION_FACTOR.
  set (dn := (rdeg mod MAX)%N) in *. set (rn := (rfrac mod 1000000)%N) in *.
  clearbody dn rn.
  set (d := Z.of_N dn). set (r := Z.of_N rn).
  assert (Hdz : (0 <= d <= 179)%Z) by (unfold d; lia).
  assert (Hrz : (0 <= r <= 999999)%Z) by (unfold r; lia).
  assert (Hd0 : (0 <= inject_Z d)%Q)
    by (change 0%Q with (inject_Z 0); rewrite <- Zle_Qle; lia).
  assert (Hd1 : (inject_Z d <= 179)%Q)
    by (change 179%Q with (inject_Z 179); rewrite <- Zle_Qle; lia).
  assert (Hr0 : (0 <= inject_Z r)%Q)
    by (change 0%Q with (inject_Z 0); rewrite <- Zle_Qle; lia).
  assert (Hr1 : (inject_Z r <= 999999)%Q)
    by (change 999999%Q with (inject_Z 999999); rewrite <- Zle_Qle; lia).
  change (inject_Z (Z.of_N 1000000)) with 1000000%Q.
  set (q := (inject_Z r / 1000000)%Q).
  assert (E : (q * 1000000 == inject_Z r)%Q) by (unfold q; field).
  pose proof (Binary64Facts.round_bounds q ltac:(lra) ltac:(lra)) as [F1 F2].
  pose proof (Binary64Facts.round_ge_Z 0 q ltac:(lra) ltac:(lra)
                ltac:(change (inject_Z 0) with 0%Q; lra)) as F0.
  change (inject_Z 0) with 0%Q in F0.
  unfold Binary64.half_ulp_8 in *.
  set (f := Binary64.round q) in *.
  pose proof (Binary64Facts.round_bounds (inject_Z d + f)
                ltac:(lra) ltac:(lra)) as [V1 V2].
  pose proof (Binary64Facts.round_ge_Z d (inject_Z d + f)
                ltac:(lra) ltac:(lra) ltac:(lra)) as V0.
  unfold Binary64.half_ulp_8 in *.
  set (v := Binary64.round (inject_Z d + f)) in *.
  unfold minutes_of, Binary64.mul, Binary64.sub, double_of_int, double_of_N,
    MINUTES_IN_DEGREE.
  change (inject_Z (Z.of_N 60)) with 60%Q.
  pose proof (Binary64Facts.round_bounds (v - inject_Z d)
                ltac:(lra) ltac:(lra)) as [T1 T2].
  pose proof (Binary64Facts.round_ge_Z 0 (v - inject_Z d) ltac:(lra) ltac:(lra)
                ltac:(change (inject_Z 0) with 0%Q; lra)) as T0.
  change (inject_Z 0) with 0%Q in T0.
  unfold Binary64.half_ulp_8 in *.
  set (t := Binary64.round (v - inject_Z d)) in *.
  pose proof (Binary64Facts.round_bounds (t * 60)
                ltac:(lra) ltac:(lra)) as [M1 M2].
  pose proof (Binary64Facts.round_ge_Z 0 (t * 60) ltac:(lra) ltac:(lra)
                ltac:(change (inject_Z 0) with 0%Q; lra)) as M0.
  change (inject_Z 0) with 0%Q in M0.
  unfold Binary64.half_ulp_8 in *.
  repeat split; lra.
Qed.

Lemma to_string_minutes (MAX rdeg rfrac : N) :
  (0 < MAX)%N -> (MAX <= 180)%N ->
  Binary64.to_string
    (minutes_of (random_coordinate MAX rdeg rfrac)
       (Binary64.to_int (random_coordinate MAX rdeg rfrac)))
  = millionths (60 * Z.of_N (rfrac mod PRECISION_FACTOR)).
Proof.
  intros Hpos Hmax.
  destruct (minutes_error MAX rdeg rfrac Hpos Hmax) as (M0 & M1 & M2).
  set (m := minutes_of _ _) in *.
  unfold Binary64.to_string, millionths.
  assert (E : Binary64.rne (Qabs m * inject_Z 1000000)
              = 60 * Z.of_N (rfrac mod PRECISION_FACTOR)).
  { apply rne_near; rewrite Qabs_pos by exact M0;
      rewrite inject_Z_mult;
      change (inject_Z 1000000) with 1000000%Q;
      change (inject_Z 60) with 60%Q; lra. }
  rewrite E. destruct (Qlt_le_dec m 0) as [F|_]; [lra|]. reflexivity.
Qed.

(** X21.  The position in a sentence is the drawn one, digit for digit:
    the latitude field is [rand() % 90] followed by sixty times
    [rand() % 1000000] as millionths of a minute, the longitude field
    likewise with [rand() % 180]; the rounding errors of the four
    operations on [double] never reach the six decimals printed. *)
Theorem generated_position_exact (w : World) :
  let r i := rand_seq w (i + rand_pos w) in
  let f := fix_of w in
  to_string_int (latDegrees f) ++ Binary64.to_string (latMinutes f)
  = to_string_int (Z.of_N (r 0%nat mod 90))
      ++ millionths (60 * Z.of_N (r 1%nat mod 1000000))
  /\ to_string_int (longDegrees f) ++ Binary64.to_string (longMinutes f)
     = to_string_int (Z.of_N (r 2%nat mod 180))
         ++ millionths (60 * Z.of_N (r 3%nat mod 1000000)).
Proof.
  cbv zeta.
  unfold fix_of, drawFix, bind, ret, gmtime_now, rand.
  cbn [fst snd clock rand_seq rand_pos latDegrees latMinutes
       longDegrees longMinutes Nat.add].
  rewrite (to_string_minutes LATITUDE_DEGREE_MAX) by (reflexivity || discriminate).
  rewrite (to_string_minutes LONGITUDE_DEGREE_MAX) by (reflexivity || discriminate).
  destruct (random_coordinate_tight LATITUDE_DEGREE_MAX
              (rand_seq w (rand_pos w)) (rand_seq w (S (rand_pos w))))
    as (-> & _); [reflexivity | discriminate |].
  destruct (random_coordinate_tight LONGITUDE_DEGREE_MAX
              (rand_seq w (S (S (rand_pos w))))
              (rand_seq w (S (S (S (rand_pos w))))))
    as (-> & _); [reflexivity | discriminate |].
  split; reflexivity.
Qed.
